(** * The Aldi storefront scraper (aldi-test.py): a shallow embedding

    The scraper drives a browser through Playwright, reads product fields
    with CSS-selector locators and appends the rows to a CSV file.  The
    browser and the header sniffer of Python's csv module are outside the
    program: they are taken here as interfaces ([Browser], [Sniffer]) and
    the functions of aldi-test.py are written over them.  Console output
    ([print]) and the fixed sleeps are left out: nothing the functions
    return depends on them.

    A [string] is a Python [str]: its elements stand for characters, not
    for the bytes of an encoding.  The output file is [None] when it does
    not exist and otherwise the text its bytes decode to, line ends as
    they were written; a file that is not UTF-8 and the refusals of the
    operating system (permissions, a full disk) are outside the model. *)

From Stdlib Require Import Ascii.
From stdpp Require Import gmap strings list.

(** ** Outcomes of a call

    A call returns, raises a Python exception (all of them subclasses of
    [Exception]), or is still running when the fuel of the model is spent:
    the scroll loop of the source has no bound of its own. *)

Inductive exn : Type :=
  | NavigationError (url : string)
  | TimeoutError
  | StrictModeViolation
  | AttributeError
  | IndexError
  | ValueError
  | CsvError.

Inductive outcome (A : Type) : Type :=
  | Ret (a : A)
  | Raise (e : exn)
  | OutOfFuel.

Arguments Ret {A} a.
Arguments Raise {A} e.
Arguments OutOfFuel {A}.

(** Sequencing: the first exception, or the loss of fuel, ends the call.
    With this instance [x ← m; k] is stdpp's notation for it. *)
#[global] Instance outcome_bind : MBind outcome := λ A B k m,
  match m with
  | Ret a => k a
  | Raise e => Raise e
  | OutOfFuel => OutOfFuel
  end.

(** An operation of the outside world either answers or raises. *)
Definition lift {A : Type} (r : exn + A) : outcome A :=
  match r with
  | inl e => Raise e
  | inr a => Ret a
  end.

(** ** The Python string operations the source uses *)

(** [startswith s p] is [s.startswith(p)]. *)
Fixpoint startswith (s p : string) : bool :=
  match p, s with
  | EmptyString, _ => true
  | String _ _, EmptyString => false
  | String b p', String a s' => if Ascii.eqb a b then startswith s' p' else false
  end.

(** [sub in s] on strings. *)
Fixpoint contains (sub s : string) : bool :=
  startswith s sub ||
  match s with
  | EmptyString => false
  | String _ s' => contains sub s'
  end.

(** [s.split(c)] for a one-character separator: the pieces between the
    separators, at least one. *)
Fixpoint split (c : ascii) (s : string) : list string :=
  match s with
  | EmptyString => [EmptyString]
  | String a s' =>
      if Ascii.eqb a c then EmptyString :: split c s'
      else match split c s' with
           | piece :: pieces => String a piece :: pieces
           | [] => [String a EmptyString]
           end
  end.

(** The double quote character, as a string. *)
Definition dquote : string := String "034" EmptyString.

(** The first [n] characters of a text: what [f.read(n)] returns of the
    text a file just opened gives its reader. *)
Fixpoint read (n : nat) (s : string) : string :=
  match n, s with
  | S n', String a s' => String a (read n' s')
  | _, _ => EmptyString
  end.

(** The text a file opened for reading in text mode gives its reader,
    [newline] being left to its default: a carriage return, with the line
    feed that follows it if there is one, is read as one line feed.
    [after_cr] says that the character before was a carriage return. *)
Fixpoint translate_newlines (after_cr : bool) (s : string) : string :=
  match s with
  | EmptyString => EmptyString
  | String a s' =>
      if Ascii.eqb a "013" then String "010" (translate_newlines true s')
      else if Ascii.eqb a "010" then
        if after_cr then translate_newlines false s'
        else String "010" (translate_newlines false s')
      else String a (translate_newlines false s')
  end.

Definition universal_newlines (s : string) : string :=
  translate_newlines false s.

(** ** The browser

    What Playwright gives the scraper.  A [page] is the state of the tab;
    a locator is resolved against it when [count], [inner_text] or
    [get_attribute] is called, to the elements matching the selector in
    document order.  The site is a function of the URL. *)

Class Browser : Type := {
  page : Type;
  element : Type;
  (** [page.goto(url, wait_until=...)] and the fixed wait after it *)
  goto : string → exn + page;
  (** the elements a selector matches in the page, and under an element *)
  query_page : page → string → list element;
  query_element : element → string → list element;
  (** [page.get_by_role(role, name=...)] *)
  query_role : page → string → string → list element;
  text_of : element → string;
  attribute_of : element → string → option string;
  (** clicking an element, and the wait after it *)
  click_on : page → element → exn + page;
  (** [window.scrollTo(0, document.body.scrollHeight)] and the sleep after it *)
  scroll_to_bottom : page → page;
  (** [document.body.scrollHeight] *)
  scroll_height : page → Z;
  (** [datetime.now().strftime("%Y-%m-%d")] *)
  current_date : string;
}.

(** Locators, resolved: the list of the elements matched. *)
Module Locator.
Abbreviation t := (list element).

Section Ops.
Context `{Browser}.

Definition first (l : t) : t := take 1 l.

Definition nth (l : t) (i : nat) : t :=
  match l !! i with
  | Some e => [e]
  | None => []
  end.

Definition count (l : t) : nat := length l.

Definition locator (l : t) (selector : string) : t :=
  l ≫= (λ e, query_element e selector).

(** Reading from a locator is strict: exactly one element, or it raises
    (it times out waiting when there is none). *)
Definition the (l : t) : outcome element :=
  match l with
  | [e] => Ret e
  | [] => Raise TimeoutError
  | _ => Raise StrictModeViolation
  end.

Definition inner_text (l : t) : outcome string :=
  e ← the l; Ret (text_of e).

Definition get_attribute (l : t) (name : string) : outcome (option string) :=
  e ← the l; Ret (attribute_of e name).

Definition click (p : page) (l : t) : outcome page :=
  e ← the l; lift (click_on p e).
End Ops.
End Locator.

Section Scraper.
Context `{Browser}.

(** ** scroll_to_load_all_items *)

(** The [while True] loop: [last_height] is the height read before. *)
Fixpoint scroll_loop (fuel : nat) (p : page) (last_height : Z) : outcome page :=
  match fuel with
  | O => OutOfFuel
  | S fuel' =>
      let p' := scroll_to_bottom p in
      let new_height := scroll_height p' in
      if Z.eqb new_height last_height then Ret p'
      else scroll_loop fuel' p' new_height
  end.

Definition scroll_to_load_all_items (fuel : nat) (p : page) : outcome page :=
  let last_height := scroll_height p in
  scroll_loop fuel p last_height.

(** The [n]-th height the loop reads on a page, the one before the
    first scroll being number 0. *)
Definition reading (p : page) (n : nat) : Z :=
  scroll_height (Nat.iter n scroll_to_bottom p).

(** The loop leaves at the [k]-th scroll: the height read after it is
    the one read before it, and no earlier scroll had that. *)
Definition stabilises_at (p : page) (k : nat) : Prop :=
  reading p (S k) = reading p k ∧ ∀ j, j < k → reading p (S j) ≠ reading p j.

(** ** extract_item_details *)

Definition not_found : string := "Not found".

Definition price_classes : list string := ["div.e-2feaft"; "div.e-s71gfs"].

(** [full_price.split('$')[1] if '$' in full_price else full_price] *)
Definition price_of (full_price : string) : outcome string :=
  if contains "$" full_price then
    match split "$"%char full_price !! 1 with
    | Some piece => Ret piece
    | None => Raise IndexError
    end
  else Ret full_price.

(** The screen-reader span looked for under one price container. *)
Definition price_span_of (deli_item : Locator.t) (price_class : string)
    : Locator.t :=
  let price_div := Locator.first (Locator.locator deli_item price_class) in
  Locator.first (Locator.locator price_div "span.screen-reader-only").

(** The [for price_class in ...] loop, [price] being the value so far. *)
Fixpoint price_loop (deli_item : Locator.t) (classes : list string)
    (price : string) : outcome string :=
  match classes with
  | [] => Ret price
  | price_class :: classes' =>
      let price_span := price_span_of deli_item price_class in
      if 0 <? Locator.count price_span then
        full_price ← Locator.inner_text price_span;
        price_of full_price
      else price_loop deli_item classes' price
  end.

(** [x.inner_text() if x.count() > 0 else default] *)
Definition text_or (l : Locator.t) (default : string) : outcome string :=
  if 0 <? Locator.count l then Locator.inner_text l else Ret default.

Definition extract_item_details (deli_item : Locator.t)
    : outcome (gmap string string) :=
  price ← price_loop deli_item price_classes not_found;
  let grocery_div := Locator.first (Locator.locator deli_item "div.e-147kl2c") in
  product_name ← text_or grocery_div not_found;
  let ozs_div := Locator.first (Locator.locator deli_item "div.e-an4oxa") in
  ounces ← text_or ozs_div not_found;
  Ret (<["Product Name" := product_name]>
        (<["Price" := "$" +:+ price]>
          (<["Ounces" := ounces]> ∅))).

(** ** scrape_deli_items *)

(** The [for i in range(deli_count)] loop. *)
Fixpoint items_loop (deli : Locator.t) (category date : string)
    (indices : list nat) (deli_data : list (gmap string string))
    : outcome (list (gmap string string)) :=
  match indices with
  | [] => Ret deli_data
  | i :: indices' =>
      let deli_item := Locator.nth deli i in
      item_details ← extract_item_details deli_item;
      let item_details := <["Category" := category]> item_details in
      let item_details := <["Date" := date]> item_details in
      items_loop deli category date indices' (deli_data ++ [item_details])
  end.

Definition scrape_deli_items (fuel : nat) (p : page)
    : outcome (list (gmap string string)) :=
  p ← scroll_to_load_all_items fuel p;
  let category_div := Locator.first (query_page p "h1.e-4jb28s") in
  category ← text_or category_div "Unknown Category";
  let deli := query_page p "h3.e-ti75j2" in
  let deli_count := Locator.count deli in
  if 0 <? deli_count then
    items_loop deli category current_date (seq 0 deli_count) []
  else Ret [].

End Scraper.

(** ** The csv module

    [csv.Sniffer().has_header] is a heuristic of the Python library, a
    vote over the columns of the sample: the program only hands it the
    sample and takes its answer, or its [csv.Error]. *)

Class Sniffer : Type := has_header : string → exn + bool.

(** The writer of the default dialect ([excel]): comma, double quote
    doubled inside a quoted field, [\r\n] after each row, and quotes only
    around a field that holds one of these characters. *)
Module Csv.
Definition quotechar : string := dquote.
Definition cr : string := String "013" EmptyString.
Definition lf : string := String "010" EmptyString.
Definition lineterminator : string := cr +:+ lf.

Definition needs_quotes (field : string) : bool :=
  contains "," field || contains quotechar field
  || contains cr field || contains lf field.

Fixpoint double_quotes (field : string) : string :=
  match field with
  | EmptyString => EmptyString
  | String a field' =>
      if Ascii.eqb a "034" then String a (String a (double_quotes field'))
      else String a (double_quotes field')
  end.

Definition quote_field (field : string) : string :=
  if needs_quotes field then quotechar +:+ double_quotes field +:+ quotechar
  else field.

Fixpoint join (fields : list string) : string :=
  match fields with
  | [] => EmptyString
  | [field] => field
  | field :: fields' => field +:+ "," +:+ join fields'
  end.

Definition writerow (row : list string) : string :=
  join (quote_field <$> row) +:+ lineterminator.
End Csv.

Section CsvFile.
Context `{Sniffer}.

Definition fieldnames : list string :=
  ["Date"; "Category"; "Product Name"; "Price"; "Ounces"].

(** [rowdict.get(key, restval) for key in fieldnames]: a missing key is
    written as the empty string. *)
Definition row_of (rowdict : gmap string string) : list string :=
  (λ key, default EmptyString (rowdict !! key)) <$> fieldnames.

(** [DictWriter._dict_to_list]: a key outside [fieldnames] raises
    [ValueError]. *)
Definition dict_to_list (rowdict : gmap string string) : outcome (list string) :=
  if decide (dom rowdict ⊆ list_to_set fieldnames) then Ret (row_of rowdict)
  else Raise ValueError.

Definition header_line : string := Csv.writerow fieldnames.

(** [DictWriter.writerows] on the text written so far: the rows before
    a bad one are written. *)
Fixpoint writerows (data : list (gmap string string)) (content : string)
    : outcome unit * string :=
  match data with
  | [] => (Ret (), content)
  | rowdict :: data' =>
      match dict_to_list rowdict with
      | Ret row => writerows data' (content +:+ Csv.writerow row)
      | Raise e => (Raise e, content)
      | OutOfFuel => (OutOfFuel, content)
      end
  end.

(** The text of a batch in which every row has its keys among
    [fieldnames]. *)
Fixpoint rows_text (data : list (gmap string string)) : string :=
  match data with
  | [] => EmptyString
  | rowdict :: data' => Csv.writerow (row_of rowdict) +:+ rows_text data'
  end.

(** [f.read(1024)] on the file opened with [open(filename, 'r',
    encoding='utf-8')]: the first 1024 characters of its text, line ends
    translated.  The file was written with [newline=''], so that each
    [\r\n] of a row counts for one character here. *)
Definition sample (content : string) : string :=
  read 1024 (universal_newlines content).

(** The [try ... except FileNotFoundError] block: the file is [None]
    when it does not exist. *)
Definition sniff_header (file : option string) : outcome bool :=
  match file with
  | Some content => lift (has_header (sample content))
  | None => Ret false
  end.

(** ** append_to_csv

    The file goes in and comes out: [None] is a file that does not
    exist, and opening it in mode ['a'] creates it. *)
Definition append_to_csv (data : list (gmap string string))
    (file : option string) : outcome unit * option string :=
  match data with
  | [] => (Ret (), file)
  | _ :: _ =>
      match sniff_header file with
      | Ret has_hdr =>
          let content := default EmptyString file in
          let content :=
            if has_hdr then content else content +:+ header_line in
          let '(result, content) := writerows data content in
          (result, Some content)
      | Raise e => (Raise e, file)
      | OutOfFuel => (OutOfFuel, file)
      end
  end.
End CsvFile.

Section Discovery.
Context `{Browser}.

(** [f"https://shop.aldi.us{href}" if href.startswith("/") else href] *)
Definition full_url_of (href : string) : string :=
  if startswith href "/" then "https://shop.aldi.us" +:+ href else href.

Definition is_collection_url (full_url : string) : bool :=
  contains "/collections/n-" full_url || contains "/collections/rc-" full_url.

(** The set the loop of [get_subcategory_urls] builds from the hrefs of
    the links it goes through. *)
Definition collection_urls (hrefs : list string) : gset string :=
  list_to_set (filter (λ full_url, is_collection_url full_url)
                      (full_url_of <$> hrefs)).

(** [link.get_attribute("href")] and the use of the result as a string:
    an element without the attribute gives [None], and
    [None.startswith] is an [AttributeError]. *)
Definition href_of (link : Locator.t) : outcome string :=
  href ← Locator.get_attribute link "href";
  match href with
  | Some href => Ret href
  | None => Raise AttributeError
  end.

(** ** get_subcategory_urls *)

(** The selector [a[href*=.../store/aldi/collections...]], the path
    between double quotes. *)
Definition subcat_selector : string :=
  "a[href*=" +:+ dquote +:+ "/store/aldi/collections" +:+ dquote +:+ "]".

(** The [for i in range(subcat_links.count())] loop. *)
Fixpoint subcat_loop (subcat_links : Locator.t) (indices : list nat)
    (sub_urls : gset string) : outcome (gset string) :=
  match indices with
  | [] => Ret sub_urls
  | i :: indices' =>
      let link := Locator.nth subcat_links i in
      href ← href_of link;
      let full_url := full_url_of href in
      if is_collection_url full_url then
        subcat_loop subcat_links indices' (sub_urls ∪ {[full_url]})
      else subcat_loop subcat_links indices' sub_urls
  end.

Definition get_subcategory_urls (department_url : string)
    : outcome (list string) :=
  p ← lift (goto department_url);
  let subcat_links := query_page p subcat_selector in
  sub_urls ← subcat_loop subcat_links (seq 0 (Locator.count subcat_links)) ∅;
  let sub_urls :=
    if decide (sub_urls = ∅) then sub_urls ∪ {[department_url]} else sub_urls in
  Ret (elements sub_urls).

(** ** get_department_urls *)

Definition base_url : string := "https://shop.aldi.us/store/aldi/storefront".

(** The [for i in range(department_links.count())] loop. *)
Fixpoint dept_loop (department_links : Locator.t) (indices : list nat)
    (dept_urls : gset string) : outcome (gset string) :=
  match indices with
  | [] => Ret dept_urls
  | i :: indices' =>
      let link := Locator.nth department_links i in
      href ← href_of link;
      let full_url := full_url_of href in
      dept_loop department_links indices' (dept_urls ∪ {[full_url]})
  end.

(** The [for dept_url in dept_urls] loop, over the set in the order it
    is iterated. *)
Fixpoint all_sub_loop (dept_urls : list string) (all_sub_urls : gset string)
    : outcome (gset string) :=
  match dept_urls with
  | [] => Ret all_sub_urls
  | dept_url :: dept_urls' =>
      sub_urls ← get_subcategory_urls dept_url;
      all_sub_loop dept_urls' (all_sub_urls ∪ list_to_set sub_urls)
  end.

(** The page on which the navigation list is looked for: the
    storefront, after the click on Confirm when the button is there. *)
Definition storefront : outcome page :=
  p ← lift (goto base_url);
  let continue_button := query_role p "button" "Confirm" in
  if 0 <? Locator.count continue_button then Locator.click p continue_button
  else Ret p.

Definition get_department_urls : outcome (list string) :=
  p ← storefront;
  let ul_locator := query_page p "ul.e-19g896u" in
  if Locator.count ul_locator =? 0 then Ret []
  else
    let department_links := query_page p "ul.e-19g896u > li > a.e-v0wv1" in
    dept_urls ←
      dept_loop department_links (seq 0 (Locator.count department_links)) ∅;
    all_sub_urls ← all_sub_loop (elements dept_urls) ∅;
    Ret (elements all_sub_urls).

(** ** run *)

(** The body of the [try], for one URL. *)
Definition scrape_url (fuel : nat) (url : string)
    : outcome (list (gmap string string)) :=
  p ← lift (goto url);
  scrape_deli_items fuel p.

(** The [for i, url in enumerate(urls)] loop with its
    [except Exception]. *)
Fixpoint run_loop (fuel : nat) (urls : list string)
    (all_deli_data : list (gmap string string))
    : outcome (list (gmap string string)) :=
  match urls with
  | [] => Ret all_deli_data
  | url :: urls' =>
      match scrape_url fuel url with
      | Ret deli_data => run_loop fuel urls' (all_deli_data ++ deli_data)
      | Raise _ => run_loop fuel urls' all_deli_data
      | OutOfFuel => OutOfFuel
      end
  end.

(** What one URL adds to [all_deli_data]: its rows, when the body of
    the [try] comes to its end. *)
Definition rows_of (fuel : nat) (url : string)
    : option (list (gmap string string)) :=
  match scrape_url fuel url with
  | Ret deli_data => Some deli_data
  | _ => None
  end.

(** [run], with the function it calls on the data at the end as an
    argument: [writer] takes the rows and the output file. *)
Definition run_with
    (writer : list (gmap string string) → option string →
              outcome unit * option string)
    (fuel : nat) (file : option string) : outcome unit * option string :=
  match get_department_urls with
  | Ret [] => (Ret (), file)
  | Ret urls =>
      match run_loop fuel urls [] with
      | Ret all_deli_data => writer all_deli_data file
      | Raise e => (Raise e, file)
      | OutOfFuel => (OutOfFuel, file)
      end
  | Raise e => (Raise e, file)
  | OutOfFuel => (OutOfFuel, file)
  end.

Definition run `{Sniffer} (fuel : nat) (file : option string)
    : outcome unit * option string :=
  run_with append_to_csv fuel file.
End Discovery.

(** ** A browser and a sniffer to run the model on

    A canned site: each page and element lists what its selectors match. *)

#[warnings="-register-all"]
Inductive mock_element : Type :=
  MockElement (text : string) (attributes : list (string * string))
    (inside : list (string * list mock_element)).

Record mock_page : Type := MockPage {
  mock_matches : list (string * list mock_element);
  mock_confirm : list mock_element;
  mock_height : nat → Z;
  mock_scrolls : nat;
}.

Fixpoint assoc {A : Type} (key : string) (l : list (string * A)) : option A :=
  match l with
  | [] => None
  | (k, a) :: l' => if decide (k = key) then Some a else assoc key l'
  end.

Definition mock_browser (site : list (string * mock_page)) (date : string)
    : Browser := {|
  page := mock_page;
  element := mock_element;
  goto url :=
    match assoc url site with
    | Some p => inr p
    | None => inl (NavigationError url)
    end;
  query_page p selector := default [] (assoc selector (mock_matches p));
  query_element e selector :=
    match e with MockElement _ _ inside => default [] (assoc selector inside) end;
  query_role p role name :=
    if decide (role = "button" ∧ name = "Confirm") then mock_confirm p else [];
  text_of e := match e with MockElement text _ _ => text end;
  attribute_of e name :=
    match e with MockElement _ attributes _ => assoc name attributes end;
  click_on p e := inr p;
  scroll_to_bottom p :=
    MockPage (mock_matches p) (mock_confirm p) (mock_height p) (S (mock_scrolls p));
  scroll_height p := mock_height p (mock_scrolls p);
  current_date := date;
|}.

(** A sniffer that finds a header exactly when the sample opens with the
    names of the five columns. *)
Definition header_on_top : Sniffer :=
  λ sample, inr (startswith sample "Date,Category,Product Name,Price,Ounces").

(** The header rows of a file: its lines that are the header row. *)
Definition header_rows (content : string) : nat :=
  length (filter (λ line, line = "Date,Category,Product Name,Price,Ounces" +:+ Csv.cr)
                 (split "010" content)).

(** [n] copies of a string, one after the other. *)
Fixpoint copies (n : nat) (s : string) : string :=
  match n with
  | O => EmptyString
  | S n' => s +:+ copies n' s
  end.


(** Product elements of the canned site: one priced at $3.99 under the
    second price container and without a weight, one whose price text has
    no dollar sign. *)
Definition mock_text (text : string) : mock_element := MockElement text [] [].

Definition mock_price (price_class text : string) : string * list mock_element :=
  (price_class,
   [MockElement EmptyString [] [("span.screen-reader-only", [mock_text text])]]).

Definition item_3_99 : mock_element :=
  MockElement EmptyString []
    [("div.e-147kl2c", [mock_text "Ham"]); mock_price "div.e-s71gfs" "$3.99"].

Definition item_free : mock_element :=
  MockElement EmptyString []
    [mock_price "div.e-2feaft" "Free"; ("div.e-an4oxa", [mock_text "16 oz"])].

(** A browser with no page to go to: enough to read elements. *)
Definition no_site : Browser := mock_browser [] "2024-01-01".

(** Two pages to scroll: one that grows at every scroll, one that stops
    growing after the second. *)
Definition growing_page : mock_page := MockPage [] [] (λ n, Z.of_nat n) 0.

Definition settling_page : mock_page :=
  MockPage [] [] (λ n, Z.of_nat (n `min` 2)) 0.

(** A row as the scraper builds it, and a file of more than 1024
    characters that holds no header row. *)
Definition ham_record : gmap string string :=
  <["Date" := "2024-01-01"]> (<["Category" := "Deli"]>
    (<["Product Name" := "Ham"]> (<["Price" := "$3.99"]>
      (<["Ounces" := "Not found"]> ∅)))).

Definition headerless_file : string :=
  copies 205 ("1,2" +:+ Csv.lineterminator).

(** The file a first run leaves when it scraped the one row. *)
Definition fresh_file : string := header_line +:+ rows_text [ham_record].

(** Pages of the canned site, none of which changes height when it is
    scrolled: a department whose two links are the same sub-category, two
    departments without sub-category links, the second with a link to
    a page that is not there, and the category page of one product. *)
Definition mock_link (href : string) : mock_element :=
  MockElement EmptyString [("href", href)] [].

Definition still_page (matches : list (string * list mock_element)) : mock_page :=
  MockPage matches [] (λ _, 800%Z) 0.

Definition department_twice : mock_page :=
  still_page [(subcat_selector,
               [mock_link "/store/aldi/collections/n-123";
                mock_link "/store/aldi/collections/n-123"])].

Definition department_plain : mock_page :=
  still_page [(subcat_selector, [mock_link "/store/aldi/collections/deli"])].

Definition department_broken : mock_page :=
  still_page [(subcat_selector, [mock_link "/store/aldi/collections/rc-9"])].

Definition category_ham : mock_page :=
  still_page [("h1.e-4jb28s", [mock_text "Deli"]); ("h3.e-ti75j2", [item_3_99])].

Definition storefront_page : mock_page :=
  still_page
    [("ul.e-19g896u", [mock_text "Departments"]);
     ("ul.e-19g896u > li > a.e-v0wv1",
      [mock_link "/store/aldi/collections/d-1";
       mock_link "/store/aldi/collections/d-2";
       mock_link "/store/aldi/collections/d-3";
       mock_link "/store/aldi/collections/d-1"])].

Definition mock_site : Browser :=
  mock_browser
    [("https://shop.aldi.us/store/aldi/storefront", storefront_page);
     ("https://shop.aldi.us/store/aldi/collections/d-1", department_twice);
     ("https://shop.aldi.us/store/aldi/collections/d-2", department_plain);
     ("https://shop.aldi.us/store/aldi/collections/d-3", department_broken);
     ("https://shop.aldi.us/store/aldi/collections/n-123", category_ham)]
    "2024-01-01".

(** The same site when its storefront has no navigation list. *)
Definition bare_site : Browser :=
  mock_browser
    [("https://shop.aldi.us/store/aldi/storefront", still_page []);
     ("https://shop.aldi.us/store/aldi/collections/n-123", category_ham)]
    "2024-01-01".

(** The category URLs discovery finds on the canned site. *)
Definition mock_urls : list string :=
  ["https://shop.aldi.us/store/aldi/collections/n-123";
   "https://shop.aldi.us/store/aldi/collections/rc-9";
   "https://shop.aldi.us/store/aldi/collections/d-2"].

(** A sniffer that cannot find a delimiter, a row with a key that is not
    a column, and a file of more than 1024 characters that opens with the
    header row. *)
Definition failing_sniffer : Sniffer := λ _, inl CsvError.

Definition bad_record : gmap string string := <["Brand" := "Aldi"]> ham_record.

Definition long_file : string :=
  header_line +:+ copies 30 (rows_text [ham_record]).

(** Three more storefronts: one whose second department link has no
    href, one whose second department cannot be loaded, and one whose
    only department leads to a category that cannot be loaded. *)
Definition site_without_href : Browser :=
  mock_browser
    [("https://shop.aldi.us/store/aldi/storefront",
      still_page
        [("ul.e-19g896u", [mock_text "Departments"]);
         ("ul.e-19g896u > li > a.e-v0wv1",
          [mock_link "/store/aldi/collections/d-1"; mock_text "Weekly ad"])]);
     ("https://shop.aldi.us/store/aldi/collections/d-1", department_twice)]
    "2024-01-01".

Definition site_broken_department : Browser :=
  mock_browser
    [("https://shop.aldi.us/store/aldi/storefront",
      still_page
        [("ul.e-19g896u", [mock_text "Departments"]);
         ("ul.e-19g896u > li > a.e-v0wv1",
          [mock_link "/store/aldi/collections/d-1";
           mock_link "/store/aldi/collections/d-7"])]);
     ("https://shop.aldi.us/store/aldi/collections/d-1", department_twice)]
    "2024-01-01".

Definition site_broken_category : Browser :=
  mock_browser
    [("https://shop.aldi.us/store/aldi/storefront",
      still_page
        [("ul.e-19g896u", [mock_text "Departments"]);
         ("ul.e-19g896u > li > a.e-v0wv1",
          [mock_link "/store/aldi/collections/d-3"])]);
     ("https://shop.aldi.us/store/aldi/collections/d-3", department_broken)]
    "2024-01-01".

(** The sub-category lists of the departments of the canned site. *)
Definition mock_subs (department_url : string) : list string :=
  if decide (department_url = "https://shop.aldi.us/store/aldi/collections/d-1")
  then ["https://shop.aldi.us/store/aldi/collections/n-123"]
  else if decide (department_url = "https://shop.aldi.us/store/aldi/collections/d-2")
  then ["https://shop.aldi.us/store/aldi/collections/d-2"]
  else ["https://shop.aldi.us/store/aldi/collections/rc-9"].

(** A second stand-in for the sniffer, after the column vote
    [csv.Sniffer.has_header] takes on a sample of plain comma-separated
    text, the cells compared as text only.  The first row is taken for
    the header; among the 21 rows after it, those with as many cells are
    kept; a column whose kept cells all have one length votes against a
    header when the cell of the first row has that length and for one
    when it has another, a column with no cell below votes for one, and a
    column of several lengths does not vote.  A header is found when the
    votes for it outnumber the votes against. *)
Definition sample_rows (sample : string) : list (list string) :=
  split "," <$> filter (λ line, line ≠ EmptyString) (split "010" sample).

Definition column_vote_of (header_cell : string) (cells : list string) : Z :=
  match cells with
  | [] => 1%Z
  | cell :: cells' =>
      if forallb (λ c, String.length c =? String.length cell) cells' then
        if String.length header_cell =? String.length cell then (-1)%Z else 1%Z
      else 0%Z
  end.

Definition column_vote : Sniffer := λ sample,
  match sample_rows sample with
  | [] => inl CsvError
  | header :: rows =>
      let rows := filter (λ row, length row = length header) (take 21 rows) in
      let votes :=
        imap (λ i cell, column_vote_of cell (omap (λ row, row !! i) rows)) header in
      inr (0 <? foldr Z.add 0%Z votes)%Z
  end.

(** Two rows of one category, as a first run scrapes them. *)
Definition sausage_rows : list (gmap string string) :=
  [<["Date" := "2024-01-01"]> (<["Category" := "Sausages"]>
     (<["Product Name" := "Bratwurst"]> (<["Price" := "$3.99"]>
       (<["Ounces" := "Not found"]> ∅))));
   <["Date" := "2024-01-01"]> (<["Category" := "Sausages"]>
     (<["Product Name" := "Salami"]> (<["Price" := "$4.99"]>
       (<["Ounces" := "16 oz"]> ∅))))].

(** * Properties *)

(** ** Strings *)

Lemma split_nonempty c s : split c s ≠ [].
Proof.
  destruct s as [|a s]; simpl; [done|].
  destruct (Ascii.eqb a c); [done|].
  by destruct (split c s).
Qed.

(** A text that holds a dollar sign has a second piece. *)
Lemma split_dollar_second s :
  contains "$" s = true → is_Some (split "$" s !! 1).
Proof.
  induction s as [|a s IH]; simpl; [done|].
  destruct (Ascii.eqb a "$") eqn:Ha; simpl.
  - intros _. pose proof (split_nonempty "$" s) as Hne.
    destruct (split "$" s); [done|]. by eexists.
  - intros Hc. destruct (IH Hc) as [piece Hpiece].
    destruct (split "$" s) as [|q qs]; [done|]. by exists piece.
Qed.

Lemma price_of_plain s : contains "$" s = false → price_of s = Ret s.
Proof. intros Hs. unfold price_of. by rewrite Hs. Qed.

Lemma price_of_returns s : ∃ price, price_of s = Ret price.
Proof.
  unfold price_of. destruct (contains "$" s) eqn:Hs; [|by eexists].
  destruct (split_dollar_second s Hs) as [piece ->]. by eexists.
Qed.

Example price_of_3_99 : price_of "$3.99" = Ret "3.99".
Proof. reflexivity. Qed.

Example price_of_no_dollar : price_of "3.99" = Ret "3.99".
Proof. reflexivity. Qed.

Example price_of_free : price_of "Free" = Ret "Free".
Proof. reflexivity. Qed.

(** The text before the first dollar sign is dropped, and so is what
    follows a second one. *)
Example price_of_two_prices : price_of "was $4.99 now $3.99" = Ret "4.99 now ".
Proof. reflexivity. Qed.

(** ** Field extraction *)

Section ExtractionFacts.
Context `{Browser}.

Lemma first_cases (l : Locator.t) :
  Locator.first l = [] ∧ l = [] ∨ ∃ e, Locator.first l = [e] ∧ l !! 0 = Some e.
Proof. destruct l as [|e l]; [by left|right; by exists e]. Qed.

(** A locator narrowed with [first] is read without an exception when
    its count is positive. *)
Lemma text_or_first (l : Locator.t) default :
  text_or (Locator.first l) default =
    Ret (match l with e :: _ => text_of e | [] => default end).
Proof. by destruct l. Qed.

Lemma text_or_absent (l : Locator.t) default :
  Locator.count l = 0 → text_or l default = Ret default.
Proof. destruct l; [done|]. intros [=]. Qed.

Lemma price_loop_absent deli_item classes price :
  (∀ price_class, price_class ∈ classes →
     Locator.count (price_span_of deli_item price_class) = 0) →
  price_loop deli_item classes price = Ret price.
Proof.
  induction classes as [|c classes IH]; intros Habsent; simpl; [done|].
  rewrite (Habsent c) by set_solver. simpl.
  apply IH. intros c' Hc'. apply Habsent. set_solver.
Qed.

Lemma price_loop_first_match deli_item before price_class after e price :
  (∀ c, c ∈ before → Locator.count (price_span_of deli_item c) = 0) →
  price_span_of deli_item price_class = [e] →
  price_loop deli_item (before ++ price_class :: after) price = price_of (text_of e).
Proof.
  intros Hbefore Hspan.
  induction before as [|c before IH]; simpl.
  - by rewrite Hspan.
  - rewrite (Hbefore c) by set_solver. simpl.
    apply IH. intros c' Hc'. apply Hbefore. set_solver.
Qed.

Lemma price_loop_returns deli_item classes price :
  ∃ price', price_loop deli_item classes price = Ret price'.
Proof.
  induction classes as [|c classes IH]; simpl; [by eexists|].
  unfold price_span_of at 1 2.
  destruct (first_cases (Locator.locator
    (Locator.first (Locator.locator deli_item c)) "span.screen-reader-only"))
    as [[-> _]|[e [-> _]]]; simpl; [done|].
  apply price_of_returns.
Qed.

(** Extraction never raises: every read is behind a count. *)
Lemma extract_item_details_returns deli_item :
  ∃ price,
    price_loop deli_item price_classes not_found = Ret price ∧
    extract_item_details deli_item =
      Ret (<["Product Name" :=
              match Locator.locator deli_item "div.e-147kl2c" with
              | e :: _ => text_of e
              | [] => not_found
              end]>
           (<["Price" := "$" +:+ price]>
             (<["Ounces" :=
                 match Locator.locator deli_item "div.e-an4oxa" with
                 | e :: _ => text_of e
                 | [] => not_found
                 end]> ∅))).
Proof.
  destruct (price_loop_returns deli_item price_classes not_found) as [price Hprice].
  exists price. split; [done|].
  unfold extract_item_details. rewrite Hprice. simpl.
  by rewrite !text_or_first.
Qed.

End ExtractionFacts.

Section ExtractionClaims.
Context `{Browser}.

(** What the record holds when the first price container with a
    screen-reader span is known. *)
Lemma extract_with_price deli_item before price_class after e price :
  price_classes = before ++ price_class :: after →
  (∀ c, c ∈ before → Locator.count (price_span_of deli_item c) = 0) →
  price_span_of deli_item price_class = [e] →
  price_of (text_of e) = Ret price →
  ∃ record,
    extract_item_details deli_item = Ret record ∧
    record !! "Price" = Some ("$" +:+ price) ∧
    (Locator.count (Locator.first (Locator.locator deli_item "div.e-an4oxa")) = 0 →
     record !! "Ounces" = Some "Not found").
Proof.
  intros Hclasses Hbefore Hspan Hprice.
  destruct (extract_item_details_returns deli_item) as (price' & Hloop & ->).
  rewrite Hclasses, (price_loop_first_match _ _ _ _ e) in Hloop by done.
  assert (price' = price) as -> by congruence.
  eexists. split; [done|]. split; [done|].
  intros Hcount. destruct (Locator.locator deli_item "div.e-an4oxa"); [done|].
  by inversion Hcount.
Qed.

(** C2: for a product element in which neither price container yields a
    screen-reader span, extraction returns a record whose Price is the
    string "$Not found"; a missing name or weight gives the plain
    "Not found". *)
Theorem missing_price_is_dollar_not_found deli_item :
  (∀ price_class, price_class ∈ price_classes →
     Locator.count (price_span_of deli_item price_class) = 0) →
  ∃ record,
    extract_item_details deli_item = Ret record ∧
    record !! "Price" = Some "$Not found" ∧
    (Locator.count (Locator.first (Locator.locator deli_item "div.e-147kl2c")) = 0 →
     record !! "Product Name" = Some "Not found") ∧
    (Locator.count (Locator.first (Locator.locator deli_item "div.e-an4oxa")) = 0 →
     record !! "Ounces" = Some "Not found").
Proof.
  intros Habsent.
  destruct (extract_item_details_returns deli_item) as (price & Hloop & ->).
  rewrite price_loop_absent in Hloop by done.
  injection Hloop as <-.
  eexists. split; [done|]. split; [done|]. split.
  - intros Hcount. destruct (Locator.locator deli_item "div.e-147kl2c"); [done|].
    by inversion Hcount.
  - intros Hcount. destruct (Locator.locator deli_item "div.e-an4oxa"); [done|].
    by inversion Hcount.
Qed.

(** C9: for a product element without a weight sub-element whose first
    price container with a screen-reader span reads "$3.99", extraction
    returns a record with Price "$3.99" and Ounces "Not found". *)
Theorem price_3_99_without_weight deli_item before price_class after e :
  price_classes = before ++ price_class :: after →
  (∀ c, c ∈ before → Locator.count (price_span_of deli_item c) = 0) →
  price_span_of deli_item price_class = [e] →
  text_of e = "$3.99" →
  Locator.count (Locator.first (Locator.locator deli_item "div.e-an4oxa")) = 0 →
  ∃ record,
    extract_item_details deli_item = Ret record ∧
    record !! "Price" = Some "$3.99" ∧
    record !! "Ounces" = Some "Not found".
Proof.
  intros Hclasses Hbefore Hspan Htext Hweight.
  destruct (extract_with_price deli_item before price_class after e "3.99")
    as (record & Hrecord & Hprice & Hounces); try done.
  { by rewrite Htext. }
  exists record. auto.
Qed.

(** C10: when the text of the price span holds no dollar sign, the whole
    text is the price, not split, and the record prefixes it with a dollar
    sign. *)
Theorem price_without_dollar_is_prefixed deli_item before price_class after e :
  price_classes = before ++ price_class :: after →
  (∀ c, c ∈ before → Locator.count (price_span_of deli_item c) = 0) →
  price_span_of deli_item price_class = [e] →
  contains "$" (text_of e) = false →
  price_of (text_of e) = Ret (text_of e) ∧
  ∃ record,
    extract_item_details deli_item = Ret record ∧
    record !! "Price" = Some ("$" +:+ text_of e).
Proof.
  intros Hclasses Hbefore Hspan Hplain.
  pose proof (price_of_plain _ Hplain) as Hprice. split; [done|].
  destruct (extract_with_price deli_item before price_class after e (text_of e))
    as (record & Hrecord & Hfield & _); try done.
  by exists record.
Qed.

End ExtractionClaims.

(** The three theorems on elements of the canned site. *)
Lemma missing_price_witness :
  ∃ record,
    @extract_item_details no_site [mock_text "Ham"] = Ret record ∧
    record !! "Price" = Some "$Not found" ∧
    record !! "Product Name" = Some "Not found" ∧
    record !! "Ounces" = Some "Not found".
Proof.
  destruct (@missing_price_is_dollar_not_found no_site [mock_text "Ham"])
    as (record & Hrecord & Hprice & Hname & Hounces).
  - intros price_class Hin.
    apply list_elem_of_In in Hin. simpl in Hin.
    destruct Hin as [<-|[<-|[]]]; reflexivity.
  - exists record. repeat split; [exact Hrecord|exact Hprice| |].
    + apply Hname. reflexivity.
    + apply Hounces. reflexivity.
Defined.

Lemma price_3_99_witness :
  ∃ record,
    @extract_item_details no_site [item_3_99] = Ret record ∧
    record !! "Price" = Some "$3.99" ∧
    record !! "Ounces" = Some "Not found".
Proof.
  apply (@price_3_99_without_weight no_site [item_3_99]
           ["div.e-2feaft"] "div.e-s71gfs" [] (mock_text "$3.99")).
  - reflexivity.
  - intros c Hc. apply list_elem_of_In in Hc. simpl in Hc.
    destruct Hc as [<-|[]]. reflexivity.
  - reflexivity.
  - reflexivity.
  - reflexivity.
Defined.

Lemma price_without_dollar_witness :
  @price_of "Free" = Ret "Free" ∧
  ∃ record,
    @extract_item_details no_site [item_free] = Ret record ∧
    record !! "Price" = Some "$Free".
Proof.
  apply (@price_without_dollar_is_prefixed no_site [item_free]
           [] "div.e-2feaft" ["div.e-s71gfs"] (mock_text "Free")).
  - reflexivity.
  - intros c Hc. apply list_elem_of_In in Hc. destruct Hc.
  - reflexivity.
  - reflexivity.
Defined.

(** ** The scroll loop *)

Section ScrollFacts.
Context `{Browser}.

Lemma reading_after_scroll p n :
  reading (scroll_to_bottom p) n = reading p (S n).
Proof. unfold reading. by rewrite Nat.iter_succ_r. Qed.

Lemma stabilises_after_scroll p k :
  stabilises_at p (S k) → stabilises_at (scroll_to_bottom p) k.
Proof.
  intros [Hstop Hbefore]. split.
  - by rewrite !reading_after_scroll.
  - intros j Hj. rewrite !reading_after_scroll. apply Hbefore. lia.
Qed.

(** The loop leaves at the first repeated height, provided the fuel
    reaches it. *)
Lemma scroll_loop_stabilises k : ∀ p fuel,
  stabilises_at p k →
  scroll_loop fuel p (scroll_height p) =
    if decide (k < fuel) then Ret (Nat.iter (S k) scroll_to_bottom p)
    else OutOfFuel.
Proof.
  induction k as [|k IH]; intros p [|fuel] Hstab; cbn [scroll_loop];
    try (case_decide; [lia|done]).
  - destruct Hstab as [Hstop _]. unfold reading in Hstop. simpl in Hstop.
    rewrite Hstop, Z.eqb_refl. case_decide; [done|lia].
  - destruct Hstab as [Hstop Hbefore].
    pose proof (Hbefore 0 ltac:(lia)) as Hfirst.
    unfold reading in Hfirst. simpl in Hfirst.
    apply Z.eqb_neq in Hfirst. rewrite Hfirst.
    rewrite (IH _ fuel (stabilises_after_scroll p k (conj Hstop Hbefore))).
    rewrite <- (Nat.iter_succ_r (S k)).
    repeat case_decide; done || lia.
Qed.

(** When the loop leaves, it is at a repeated height, the first. *)
Lemma scroll_loop_returned fuel : ∀ p q,
  scroll_loop fuel p (scroll_height p) = Ret q →
  ∃ k, k < fuel ∧ stabilises_at p k ∧ q = Nat.iter (S k) scroll_to_bottom p.
Proof.
  induction fuel as [|fuel IH]; intros p q; simpl; [done|].
  destruct (Z.eqb_spec (scroll_height (scroll_to_bottom p)) (scroll_height p))
    as [Hsame|Hdiff].
  - intros [= <-]. exists 0. split; [lia|]. split; [|done].
    split; [done|]. intros j Hj. lia.
  - intros Hrest. destruct (IH _ _ Hrest) as (k & Hk & [Hstop Hbefore] & ->).
    exists (S k). split; [lia|]. split.
    + split.
      * by rewrite !reading_after_scroll in Hstop.
      * intros [|j] Hj; [done|].
        specialize (Hbefore j ltac:(lia)).
        by rewrite !reading_after_scroll in Hbefore.
    + by rewrite <- (Nat.iter_succ_r (S k)).
Qed.

Lemma scroll_loop_forever fuel : ∀ p,
  (∀ n, reading p (S n) ≠ reading p n) →
  scroll_loop fuel p (scroll_height p) = OutOfFuel.
Proof.
  induction fuel as [|fuel IH]; intros p Hnever; simpl; [done|].
  pose proof (Hnever 0) as Hfirst. unfold reading in Hfirst. simpl in Hfirst.
  apply Z.eqb_neq in Hfirst. rewrite Hfirst.
  apply IH. intros n. rewrite !reading_after_scroll. apply Hnever.
Qed.

(** C5: over the heights it reads, the scroll loop returns exactly at the
    first scroll after which the height read equals the one read before,
    and on a page where no two consecutive readings are equal it never
    returns, whatever the fuel: the loop has no bound of its own. *)
Theorem scroll_stops_at_first_repeat (p : page) :
  (∀ fuel q, scroll_to_load_all_items fuel p = Ret q →
     ∃ k, k < fuel ∧ stabilises_at p k ∧ q = Nat.iter (S k) scroll_to_bottom p) ∧
  (∀ k fuel, stabilises_at p k →
     scroll_to_load_all_items fuel p =
       if decide (k < fuel) then Ret (Nat.iter (S k) scroll_to_bottom p)
       else OutOfFuel) ∧
  ((∀ n, reading p (S n) ≠ reading p n) →
     ∀ fuel, scroll_to_load_all_items fuel p = OutOfFuel).
Proof.
  unfold scroll_to_load_all_items. split; [|split].
  - intros fuel q. apply scroll_loop_returned.
  - intros k fuel. apply scroll_loop_stabilises.
  - intros Hnever fuel. by apply scroll_loop_forever.
Qed.

End ScrollFacts.

Lemma growing_page_reading n :
  @reading no_site growing_page n = Z.of_nat n.
Proof.
  unfold reading.
  assert (Nat.iter n (@scroll_to_bottom no_site) growing_page
          = MockPage [] [] (λ n, Z.of_nat n) n) as ->; [|done].
  induction n as [|n IH]; [done|]. by rewrite Nat.iter_succ, IH.
Qed.

(** On the page that stops growing the loop returns after the third
    scroll and not before; on the growing page it never does. *)
Lemma scroll_stops_witness :
  @scroll_to_load_all_items no_site 3 settling_page =
    Ret (MockPage [] [] (λ n, Z.of_nat (n `min` 2)) 3) ∧
  @scroll_to_load_all_items no_site 2 settling_page = OutOfFuel ∧
  ∀ fuel, @scroll_to_load_all_items no_site fuel growing_page = OutOfFuel.
Proof.
  assert (@stabilises_at no_site settling_page 2) as Hsettles.
  { split; [reflexivity|]. intros [|[|j]] Hj; [discriminate..|lia]. }
  destruct (@scroll_stops_at_first_repeat no_site settling_page)
    as (_ & Hstops & _).
  destruct (@scroll_stops_at_first_repeat no_site growing_page)
    as (_ & _ & Hnever).
  split; [exact (Hstops 2 3 Hsettles)|].
  split; [exact (Hstops 2 2 Hsettles)|].
  apply Hnever. intros n. rewrite !growing_page_reading. lia.
Defined.

(** ** The CSV file *)

Lemma append_cons a (s t : string) : String a s +:+ t = String a (s +:+ t).
Proof. reflexivity. Qed.

Lemma append_assoc (s1 s2 s3 : string) : (s1 +:+ s2) +:+ s3 = s1 +:+ (s2 +:+ s3).
Proof. induction s1 as [|a s1 IH]; [done|]. by rewrite !append_cons, IH. Qed.

Lemma append_empty_r (s : string) : s +:+ EmptyString = s.
Proof. induction s as [|a s IH]; [done|]. by rewrite append_cons, IH. Qed.

(** The first [n] characters of a file of at least [n] characters are
    not changed by what is appended to it. *)
Lemma read_append n : ∀ s t,
  n ≤ String.length s → read n (s +:+ t) = read n s.
Proof.
  induction n as [|n IH]; intros [|a s] t Hlen; simpl in *; try done; [lia|].
  rewrite IH; [done|lia].
Qed.

(** What a file gives its reader is not changed by what is appended to
    the file: it gets longer. *)
Lemma translate_newlines_append (s t : string) : ∀ after_cr,
  ∃ after_cr', translate_newlines after_cr (s +:+ t)
    = translate_newlines after_cr s +:+ translate_newlines after_cr' t.
Proof.
  induction s as [|a s IH]; intros after_cr.
  - by exists after_cr.
  - rewrite append_cons. simpl.
    destruct (Ascii.eqb a "013"); [|destruct (Ascii.eqb a "010")].
    + destruct (IH true) as [b ->]. by exists b.
    + destruct (IH false) as [b ->]. exists b. by destruct after_cr.
    + destruct (IH false) as [b ->]. by exists b.
Qed.

Lemma sample_append (old added : string) :
  1024 ≤ String.length (universal_newlines old) →
  sample (old +:+ added) = sample old.
Proof.
  intros Hlong. unfold sample, universal_newlines.
  destruct (translate_newlines_append old added false) as [b ->].
  by apply read_append.
Qed.

Example universal_newlines_mixed :
  universal_newlines
    ("a" +:+ Csv.cr +:+ Csv.lf +:+ "b" +:+ Csv.cr +:+ "c" +:+ Csv.lf
     +:+ "d" +:+ Csv.cr +:+ Csv.cr +:+ Csv.lf +:+ Csv.lf)
  = "a" +:+ Csv.lf +:+ "b" +:+ Csv.lf +:+ "c" +:+ Csv.lf
    +:+ "d" +:+ Csv.lf +:+ Csv.lf +:+ Csv.lf.
Proof. reflexivity. Qed.

(** The rows of the program count one character less each in the sample
    than in the file. *)
Example sample_of_headerless_file :
  String.length headerless_file = 1025 ∧
  String.length (sample headerless_file) = 820.
Proof. split; vm_compute; reflexivity. Qed.

(** [writerows] only adds to the text it is given. *)
Lemma writerows_from data : ∀ content,
  writerows data content =
    ((writerows data EmptyString).1, content +:+ (writerows data EmptyString).2).
Proof.
  induction data as [|rowdict data IH]; intros content; simpl.
  - by rewrite append_empty_r.
  - destruct (dict_to_list rowdict) as [row| |]; simpl;
      [|by rewrite append_empty_r..].
    change (EmptyString +:+ Csv.writerow row) with (Csv.writerow row).
    rewrite (IH (content +:+ _)), (IH (Csv.writerow row)).
    simpl. by rewrite append_assoc.
Qed.

Lemma writerows_well_formed data :
  (∀ rowdict, rowdict ∈ data → dom rowdict ⊆ list_to_set fieldnames) →
  writerows data EmptyString = (Ret (), rows_text data).
Proof.
  induction data as [|rowdict data IH]; intros Hkeys; simpl; [done|].
  unfold dict_to_list. rewrite decide_True by (apply Hkeys; set_solver).
  rewrite writerows_from, IH by (intros r Hr; apply Hkeys; set_solver).
  done.
Qed.

Section CsvClaims.
Context `{Sniffer}.

(** What one append does to a file, by what the sniff answers. *)
Lemma append_to_csv_sniffed data file has_hdr :
  data ≠ [] →
  sniff_header file = Ret has_hdr →
  append_to_csv data file =
    ((writerows data EmptyString).1,
     Some (default EmptyString file
           +:+ (if has_hdr then EmptyString else header_line)
           +:+ (writerows data EmptyString).2)).
Proof.
  intros Hdata Hsniff. destruct data as [|rowdict data]; [done|].
  unfold append_to_csv. rewrite Hsniff.
  rewrite writerows_from. destruct has_hdr.
  - done.
  - by rewrite append_assoc.
Qed.

(** C7: a non-empty batch appended when the output file does not exist
    creates it with the header row first, once, the columns in the order
    Date, Category, Product Name, Price, Ounces, and the data rows after
    it. *)
Theorem missing_file_gets_one_header (data : list (gmap string string)) :
  data ≠ [] →
  sniff_header None = Ret false ∧
  header_line =
    "Date,Category,Product Name,Price,Ounces" +:+ Csv.lineterminator ∧
  append_to_csv data None =
    ((writerows data EmptyString).1,
     Some (header_line +:+ (writerows data EmptyString).2)) ∧
  ((∀ rowdict, rowdict ∈ data → dom rowdict ⊆ list_to_set fieldnames) →
   append_to_csv data None = (Ret (), Some (header_line +:+ rows_text data))).
Proof.
  intros Hdata. split; [done|]. split; [done|].
  assert (append_to_csv data None =
    ((writerows data EmptyString).1,
     Some (header_line +:+ (writerows data EmptyString).2))) as Happend.
  { by rewrite (append_to_csv_sniffed data None false). }
  split; [done|].
  intros Hkeys. by rewrite Happend, writerows_well_formed.
Qed.

End CsvClaims.

(** On a file whose text has 1024 characters or more the two appends
    take the same decision, whatever the sniffer: what the first one
    writes goes to the end of the file, outside the sample.  When the
    sniff finds no header there, each append writes the header row. *)
Lemma long_file_same_decision `{Sniffer}
    (old : string) (d1 d2 : list (gmap string string)) (has_hdr : bool) :
  d1 ≠ [] → d2 ≠ [] →
  1024 ≤ String.length (universal_newlines old) →
  has_header (sample old) = inr has_hdr →
  let header := if has_hdr then EmptyString else header_line in
  let file1 := old +:+ header +:+ (writerows d1 EmptyString).2 in
  append_to_csv d1 (Some old) = ((writerows d1 EmptyString).1, Some file1) ∧
  append_to_csv d2 (Some file1) =
    ((writerows d2 EmptyString).1,
     Some (file1 +:+ header +:+ (writerows d2 EmptyString).2)).
Proof.
  intros Hd1 Hd2 Hlong Hsniff header file1. split.
  - rewrite (append_to_csv_sniffed d1 (Some old) has_hdr); [done..|].
    unfold sniff_header. by rewrite Hsniff.
  - rewrite (append_to_csv_sniffed d2 (Some file1) has_hdr); [done..|].
    unfold sniff_header, file1. rewrite sample_append by done.
    by rewrite Hsniff.
Qed.

Lemma missing_file_witness :
  @append_to_csv header_on_top [ham_record] None =
    (Ret (),
     Some ("Date,Category,Product Name,Price,Ounces" +:+ Csv.lineterminator
           +:+ "2024-01-01,Deli,Ham,$3.99,Not found" +:+ Csv.lineterminator)).
Proof.
  destruct (@missing_file_gets_one_header header_on_top [ham_record])
    as (_ & _ & _ & Happend); [done|].
  rewrite Happend; [reflexivity|].
  intros rowdict Hin. apply list_elem_of_In in Hin. simpl in Hin.
  destruct Hin as [<-|[]]. vm_compute. done.
Defined.

(** C1: two appends in succession can leave two header rows.  On a file
    that is there before the first append and holds no header, each of
    the two appends writes the header row: the first one writes it at the
    end of the file, after the rows that were there, and the sniff, which
    takes the first row of its sample for the header, does not find it. *)
Lemma two_appends_two_headers :
  ∃ file1 file2 : string,
    @append_to_csv header_on_top [ham_record] (Some headerless_file)
      = (Ret (), Some file1) ∧
    @append_to_csv header_on_top [ham_record] (Some file1)
      = (Ret (), Some file2) ∧
    file2 = headerless_file
            +:+ header_line +:+ rows_text [ham_record]
            +:+ header_line +:+ rows_text [ham_record] ∧
    header_rows headerless_file = 0 ∧
    header_rows file1 = 1 ∧
    header_rows file2 = 2.
Proof.
  eexists _, _. split; [vm_compute; reflexivity|].
  split; [vm_compute; reflexivity|].
  repeat split; vm_compute; reflexivity.
Qed.

(** ** Category discovery *)

Lemma filter_absent (urls : list string) url :
  url ∉ urls → filter (λ u, u = url) urls = [].
Proof.
  induction urls as [|u urls IH]; intros Habsent; [done|].
  rewrite filter_cons, decide_False.
  - apply IH. intros Hin. apply Habsent. by right.
  - intros ->. apply Habsent. by left.
Qed.

(** An element of a list without repetition is in it exactly once. *)
Lemma once_in_NoDup (urls : list string) url :
  NoDup urls → url ∈ urls → length (filter (λ u, u = url) urls) = 1.
Proof.
  induction 1 as [|u urls Hfresh Hnodup IH]; intros Hin; [by inversion Hin|].
  rewrite filter_cons. case_decide as Hu.
  - subst u. by rewrite filter_absent.
  - apply IH. inversion Hin; by subst.
Qed.

Section DiscoveryFacts.
Context `{Browser}.

Lemma nth_middle (before after : Locator.t) e :
  Locator.nth (before ++ e :: after) (length before) = [e].
Proof.
  unfold Locator.nth. by rewrite list_lookup_middle.
Qed.

Lemma href_of_link e href :
  attribute_of e "href" = Some href → href_of [e] = Ret href.
Proof. intros Hattr. unfold href_of. simpl. by rewrite Hattr. Qed.

(** The loop over the indices goes through the links one by one. *)
Lemma subcat_loop_links (links : Locator.t) : ∀ before hrefs sub_urls,
  (λ link, attribute_of link "href") <$> links = Some <$> hrefs →
  subcat_loop (before ++ links) (seq (length before) (length links)) sub_urls
    = Ret (sub_urls ∪ collection_urls hrefs).
Proof.
  induction links as [|link links IH]; intros before hrefs sub_urls Hhrefs.
  - destruct hrefs; [|done]. simpl. f_equal. unfold collection_urls. simpl.
    by rewrite (right_id_L ∅ (∪)).
  - destruct hrefs as [|href hrefs]; [done|].
    injection Hhrefs as Hhref Hrest.
    cbn [length seq subcat_loop].
    rewrite nth_middle, (href_of_link _ _ Hhref). simpl.
    specialize (IH (before ++ [link]) hrefs).
    rewrite <- (assoc_L (++)), length_app, Nat.add_1_r in IH. simpl in IH.
    unfold collection_urls. rewrite fmap_cons, filter_cons.
    destruct (is_collection_url (full_url_of href)) eqn:Hmatch.
    + rewrite decide_True by done. rewrite IH by done.
      f_equal. unfold collection_urls. simpl. by rewrite (assoc_L (∪)).
    + rewrite decide_False by (by intros []). by rewrite IH.
Qed.

Lemma get_subcategory_urls_links department_url p hrefs :
  goto department_url = inr p →
  (λ link, attribute_of link "href") <$> query_page p subcat_selector
    = Some <$> hrefs →
  get_subcategory_urls department_url =
    Ret (elements (if decide (collection_urls hrefs = ∅)
                   then {[department_url]} else collection_urls hrefs)).
Proof.
  intros Hgoto Hhrefs. unfold get_subcategory_urls. rewrite Hgoto. simpl.
  pose proof (subcat_loop_links _ [] hrefs ∅ Hhrefs) as Hloop.
  simpl in Hloop. unfold Locator.count. rewrite Hloop. simpl.
  rewrite (left_id_L ∅ (∪)).
  case_decide as Hempty; [|done]. rewrite Hempty. by rewrite (left_id_L ∅ (∪)).
Qed.

Lemma collection_urls_none hrefs :
  (∀ href, href ∈ hrefs → is_collection_url (full_url_of href) = false) →
  collection_urls hrefs = ∅.
Proof.
  intros Hnone. unfold collection_urls.
  assert (filter (λ full_url, is_collection_url full_url)
                 (full_url_of <$> hrefs) = []) as ->; [|done].
  induction hrefs as [|href hrefs IH]; [done|].
  rewrite fmap_cons, filter_cons, (Hnone href) by (by left).
  rewrite decide_False by (by intros []).
  apply IH. intros href' Hin. apply Hnone. by right.
Qed.

(** C3: the list returned for a department page holds no URL twice, and
    every link whose URL has one of the two collection paths is in it
    exactly once, however many links carry it; a page whose two links are
    both /store/aldi/collections/n-123 gives the one URL
    https://shop.aldi.us/store/aldi/collections/n-123. *)
Theorem subcategory_urls_are_unique department_url p hrefs :
  goto department_url = inr p →
  (λ link, attribute_of link "href") <$> query_page p subcat_selector
    = Some <$> hrefs →
  ∃ urls,
    get_subcategory_urls department_url = Ret urls ∧
    NoDup urls ∧
    (∀ href, href ∈ hrefs → is_collection_url (full_url_of href) = true →
       length (filter (λ url, url = full_url_of href) urls) = 1) ∧
    (hrefs = ["/store/aldi/collections/n-123"; "/store/aldi/collections/n-123"] →
       urls = ["https://shop.aldi.us/store/aldi/collections/n-123"]).
Proof.
  intros Hgoto Hhrefs.
  rewrite (get_subcategory_urls_links _ _ _ Hgoto Hhrefs).
  eexists. split; [done|]. split; [apply NoDup_elements|]. split.
  - intros href Hin Hmatch.
    assert (full_url_of href ∈ collection_urls hrefs) as Hfound.
    { unfold collection_urls. rewrite elem_of_list_to_set, list_elem_of_filter.
      split; [by rewrite Hmatch|]. by apply list_elem_of_fmap_2. }
    apply once_in_NoDup; [apply NoDup_elements|].
    apply elem_of_elements. case_decide as Hempty; [|done].
    rewrite Hempty in Hfound. by apply not_elem_of_empty in Hfound.
  - intros ->. vm_compute. reflexivity.
Qed.

(** C4: when no link of the department page has a URL with one of the
    two collection paths, the list returned is the department URL
    alone. *)
Theorem department_without_subcategories department_url p hrefs :
  goto department_url = inr p →
  (λ link, attribute_of link "href") <$> query_page p subcat_selector
    = Some <$> hrefs →
  (∀ href, href ∈ hrefs → is_collection_url (full_url_of href) = false) →
  get_subcategory_urls department_url = Ret [department_url].
Proof.
  intros Hgoto Hhrefs Hnone.
  rewrite (get_subcategory_urls_links _ _ _ Hgoto Hhrefs).
  rewrite (collection_urls_none hrefs Hnone).
  rewrite decide_True by done. by rewrite elements_singleton.
Qed.

End DiscoveryFacts.

Lemma subcategory_urls_witness :
  @get_subcategory_urls mock_site "https://shop.aldi.us/store/aldi/collections/d-1"
    = Ret ["https://shop.aldi.us/store/aldi/collections/n-123"].
Proof.
  destruct (@subcategory_urls_are_unique mock_site
              "https://shop.aldi.us/store/aldi/collections/d-1" department_twice
              ["/store/aldi/collections/n-123"; "/store/aldi/collections/n-123"])
    as (urls & Hurls & _ & _ & Hone); [reflexivity..|].
  rewrite Hurls. f_equal. apply Hone. reflexivity.
Defined.

Lemma department_fallback_witness :
  @get_subcategory_urls mock_site "https://shop.aldi.us/store/aldi/collections/d-2"
    = Ret ["https://shop.aldi.us/store/aldi/collections/d-2"].
Proof.
  apply (@department_without_subcategories mock_site
           "https://shop.aldi.us/store/aldi/collections/d-2" department_plain
           ["/store/aldi/collections/deli"]); [reflexivity..|].
  intros href Hin. apply list_elem_of_In in Hin. simpl in Hin.
  destruct Hin as [<-|[]]. reflexivity.
Defined.

(** ** The orchestrator *)

Section RunClaims.
Context `{Browser}.

(** C6: when the navigation list is not found on the storefront page,
    category discovery returns the empty list and [run] returns at once:
    what it would call on the rows at the end is not called, and the
    output file is left as it was, absent if it was absent. *)
Theorem no_navigation_list_no_output (p : page) :
  storefront = Ret p →
  Locator.count (query_page p "ul.e-19g896u") = 0 →
  get_department_urls = Ret [] ∧
  (∀ writer fuel file, run_with writer fuel file = (Ret (), file)) ∧
  (∀ (sniffer : Sniffer) fuel file, run fuel file = (Ret (), file)).
Proof.
  intros Hstore Hcount.
  assert (get_department_urls = Ret []) as Hurls.
  { unfold get_department_urls. rewrite Hstore. simpl. by rewrite Hcount. }
  split; [done|]. split.
  - intros writer fuel file. unfold run_with. by rewrite Hurls.
  - intros sniffer fuel file. unfold run, run_with. by rewrite Hurls.
Qed.

(** The loop adds the rows of the URLs that did not fail to the rows it
    has, in the order of the URLs. *)
Lemma run_loop_rows fuel urls : ∀ all_deli_data,
  (∀ url, url ∈ urls → scrape_url fuel url ≠ OutOfFuel) →
  run_loop fuel urls all_deli_data
    = Ret (all_deli_data ++ concat (omap (rows_of fuel) urls)).
Proof.
  induction urls as [|url urls IH]; intros all_deli_data Hfuel; simpl.
  - by rewrite (right_id_L [] (++)).
  - assert (∀ url', url' ∈ urls → scrape_url fuel url' ≠ OutOfFuel) as Hrest.
    { intros url' Hin. apply Hfuel. by right. }
    pose proof (Hfuel url ltac:(by left)) as Hurl.
    unfold rows_of at 1.
    destruct (scrape_url fuel url) as [deli_data|e|]; [| |done].
    + rewrite IH by done. simpl. by rewrite (assoc_L (++)).
    + by rewrite IH.
Qed.

(** C8: a URL whose scraping raises is passed over and the loop goes on:
    with fuel enough for every scroll loop to end, the rows accumulated
    are those of the URLs that did not fail, in order, and they are what
    is handed to the CSV writer at the end. *)
Theorem failed_urls_are_skipped (fuel : nat) (urls : list string) :
  (∀ url, url ∈ urls → scrape_url fuel url ≠ OutOfFuel) →
  run_loop fuel urls [] = Ret (concat (omap (rows_of fuel) urls)) ∧
  (∀ before url after e,
     urls = before ++ url :: after → scrape_url fuel url = Raise e →
     run_loop fuel urls [] = run_loop fuel (before ++ after) []) ∧
  (∀ (sniffer : Sniffer) file,
     get_department_urls = Ret urls → urls ≠ [] →
     run fuel file = append_to_csv (concat (omap (rows_of fuel) urls)) file).
Proof.
  intros Hfuel.
  pose proof (run_loop_rows fuel urls [] Hfuel) as Hloop. simpl in Hloop.
  split; [done|]. split.
  - intros before url after e -> Hraise.
    rewrite Hloop, run_loop_rows.
    + simpl. rewrite !omap_app. simpl. unfold rows_of at 2. by rewrite Hraise.
    + intros url' Hin. apply Hfuel.
      apply elem_of_app in Hin as [Hin|Hin]; apply elem_of_app; [by left|].
      right. by right.
  - intros sniffer file Hurls Hsome. unfold run, run_with.
    rewrite Hurls, Hloop. by destruct urls.
Qed.

End RunClaims.

Lemma no_navigation_list_witness :
  @get_department_urls bare_site = Ret [] ∧
  (∀ writer fuel file, @run_with bare_site writer fuel file = (Ret (), file)) ∧
  (∀ (sniffer : Sniffer) fuel file,
     @run bare_site sniffer fuel file = (Ret (), file)).
Proof.
  apply (@no_navigation_list_no_output bare_site (still_page []));
    reflexivity.
Defined.

(** On the canned site the second URL cannot be loaded and the third
    page has no product: the row of the first is what gets written. *)
Lemma failed_urls_witness :
  @run_loop mock_site 1 mock_urls [] = Ret [ham_record] ∧
  @run mock_site header_on_top 1 None = (Ret (), Some fresh_file).
Proof.
  destruct (@failed_urls_are_skipped mock_site 1 mock_urls)
    as (Hloop & _ & Hrun).
  - intros url Hin. apply list_elem_of_In in Hin. simpl in Hin.
    destruct Hin as [<-|[<-|[<-|[]]]]; vm_compute; discriminate.
  - split.
    + rewrite Hloop. vm_compute. reflexivity.
    + rewrite (Hrun header_on_top None); [|reflexivity|discriminate].
      vm_compute. reflexivity.
Defined.

(** The same on the file of a first run.  The category has the eight
    characters of the word Category and the prices the five of the word
    Price, so that two columns vote against a header and the column of
    the dates alone votes for one: the second run writes the header row
    again, under the rows of the first. *)
Lemma first_run_file_gets_header_again :
  ∃ file1 file2 : string,
    @append_to_csv column_vote sausage_rows None = (Ret (), Some file1) ∧
    @append_to_csv column_vote sausage_rows (Some file1) = (Ret (), Some file2) ∧
    @has_header column_vote (sample file1) = inr false ∧
    file2 = header_line +:+ rows_text sausage_rows
            +:+ header_line +:+ rows_text sausage_rows ∧
    header_rows file1 = 1 ∧
    header_rows file2 = 2.
Proof.
  eexists _, _. split; [vm_compute; reflexivity|].
  split; [vm_compute; reflexivity|].
  repeat split; vm_compute; reflexivity.
Qed.

(** * Further properties of the code *)

(** ** The price text *)

Lemma contains_char_cons c a s :
  contains (String c EmptyString) (String a s)
    = Ascii.eqb a c || contains (String c EmptyString) s.
Proof. simpl. by destruct (Ascii.eqb a c), s. Qed.

(** No piece of a split holds the separator. *)
Lemma split_pieces_clean c s : ∀ piece,
  piece ∈ split c s → contains (String c EmptyString) piece = false.
Proof.
  induction s as [|a s IH]; intros piece Hin.
  - apply list_elem_of_singleton in Hin as ->. done.
  - simpl in Hin. destruct (Ascii.eqb a c) eqn:Hac.
    + apply elem_of_cons in Hin as [->|Hin]; [done|by apply IH].
    + pose proof (split_nonempty c s) as Hne.
      destruct (split c s) as [|p ps]; [done|].
      apply elem_of_cons in Hin as [->|Hin].
      * rewrite contains_char_cons, Hac. apply IH. by left.
      * apply IH. by right.
Qed.

Lemma split_up_to_separator c a s :
  contains (String c EmptyString) a = false →
  split c (a +:+ String c s) = a :: split c s.
Proof.
  induction a as [|x a IH]; intros Hclean.
  - change (EmptyString +:+ String c s) with (String c s).
    simpl. by rewrite Ascii.eqb_refl.
  - rewrite contains_char_cons in Hclean.
    apply orb_false_iff in Hclean as [Hx Ha].
    rewrite append_cons. simpl. by rewrite Hx, IH.
Qed.

Lemma split_without_separator c s :
  contains (String c EmptyString) s = false → split c s = [s].
Proof.
  induction s as [|x s IH]; intros Hclean; [done|].
  rewrite contains_char_cons in Hclean.
  apply orb_false_iff in Hclean as [Hx Hs].
  simpl. by rewrite Hx, IH.
Qed.

Lemma contains_separator c a s :
  contains (String c EmptyString) (a +:+ String c s) = true.
Proof.
  induction a as [|x a IH].
  - change (EmptyString +:+ String c s) with (String c s).
    by rewrite contains_char_cons, Ascii.eqb_refl.
  - by rewrite append_cons, contains_char_cons, IH, orb_true_r.
Qed.

Lemma price_of_clean full_price price :
  price_of full_price = Ret price → contains "$" price = false.
Proof.
  unfold price_of. destruct (contains "$" full_price) eqn:Hdollar.
  - destruct (split "$" full_price !! 1) as [piece|] eqn:Hpiece; [|done].
    intros [= <-]. apply (split_pieces_clean "$" full_price).
    by eapply list_elem_of_lookup_2.
  - by intros [= <-].
Qed.

(** X1: the price is the text between the first dollar sign and the next:
    what comes before the first one, and a second price after it, are
    dropped. *)
Theorem price_between_dollars (before price rest : string) :
  contains "$" before = false →
  contains "$" price = false →
  rest = EmptyString ∨ startswith rest "$" = true →
  price_of (before +:+ "$" +:+ price +:+ rest) = Ret price.
Proof.
  intros Hbefore Hprice Hrest. unfold price_of.
  change ("$" +:+ price +:+ rest) with (String "$" (price +:+ rest)).
  rewrite contains_separator, split_up_to_separator by done.
  destruct Hrest as [->|Hrest].
  - by rewrite append_empty_r, split_without_separator.
  - destruct rest as [|x rest]; [done|]. simpl in Hrest.
    destruct (Ascii.eqb_spec x "$") as [->|]; [|done].
    by rewrite split_up_to_separator.
Qed.

Lemma price_between_dollars_witness :
  price_of ("Current price: " +:+ "$" +:+ "3.99" +:+ "$4.99 original")
    = Ret "3.99".
Proof.
  apply (price_between_dollars "Current price: " "3.99" "$4.99 original");
    [reflexivity..|]. right. reflexivity.
Defined.

(** ** Extraction and scraping *)

Section ScrapingFacts.
Context `{Browser}.

Lemma price_loop_clean deli_item classes : ∀ price price',
  contains "$" price = false →
  price_loop deli_item classes price = Ret price' →
  contains "$" price' = false.
Proof.
  induction classes as [|c classes IH]; intros price price' Hclean; simpl.
  - by intros [= <-].
  - destruct (price_span_of deli_item c) as [|e [|e' span]] eqn:Hspan; simpl.
    + by apply IH.
    + apply price_of_clean.
    + done.
Qed.

(** X2: every read of [extract_item_details] is behind a count on a locator
    narrowed with [first]: the function returns for every element, with
    the three keys, and the one dollar sign of the price is the one put
    in front of it. *)
Theorem extraction_always_returns (deli_item : Locator.t) :
  ∃ record price,
    extract_item_details deli_item = Ret record ∧
    dom record = list_to_set ["Product Name"; "Price"; "Ounces"] ∧
    record !! "Price" = Some ("$" +:+ price) ∧
    contains "$" price = false.
Proof.
  destruct (extract_item_details_returns deli_item) as (price & Hloop & ->).
  eexists _, price. split; [done|]. split; [|split; [done|]].
  - rewrite !dom_insert_L, dom_empty_L. set_solver.
  - by apply (price_loop_clean deli_item price_classes not_found).
Qed.

(** The category of a page: its heading, when there is one. *)
Lemma category_of_page p :
  text_or (Locator.first (query_page p "h1.e-4jb28s")) "Unknown Category"
    = Ret (match query_page p "h1.e-4jb28s" with
           | e :: _ => text_of e
           | [] => "Unknown Category"
           end).
Proof. apply text_or_first. Qed.

(** The loop over the indices builds one row for each product element, in
    the order of the elements. *)
Lemma items_loop_rows category date (deli : Locator.t) : ∀ before deli_data,
  ∃ rows,
    items_loop (before ++ deli) category date
      (seq (length before) (length deli)) deli_data = Ret (deli_data ++ rows) ∧
    Forall2 (λ e row, ∃ details,
               extract_item_details [e] = Ret details ∧
               row = <["Date" := date]> (<["Category" := category]> details))
            deli rows.
Proof.
  induction deli as [|e deli IH]; intros before deli_data.
  - exists []. split; [|constructor]. simpl. by rewrite (right_id_L [] (++)).
  - cbn [length seq items_loop]. rewrite nth_middle.
    destruct (extract_item_details_returns [e]) as (price & _ & Hform).
    destruct (extract_item_details [e]) as [details| |] eqn:Hdetails; [|done..].
    clear Hform. simpl.
    destruct (IH (before ++ [e])
                (deli_data ++ [<["Date" := date]> (<["Category" := category]> details)]))
      as (rows & Hloop & Hrows).
    rewrite <- (assoc_L (++)), length_app, Nat.add_1_r in Hloop. simpl in Hloop.
    eexists (_ :: rows). split.
    + rewrite Hloop. by rewrite <- (assoc_L (++)).
    + constructor; [|done]. by exists details.
Qed.

Lemma scrape_after_scroll fuel p p' :
  scroll_to_load_all_items fuel p = Ret p' →
  ∃ rows,
    scrape_deli_items fuel p = Ret rows ∧
    Forall2 (λ e row, ∃ details,
               extract_item_details [e] = Ret details ∧
               row = <["Date" := current_date]>
                       (<["Category" :=
                           match query_page p' "h1.e-4jb28s" with
                           | e :: _ => text_of e
                           | [] => "Unknown Category"
                           end]> details))
            (query_page p' "h3.e-ti75j2") rows.
Proof.
  intros Hscroll. unfold scrape_deli_items. rewrite Hscroll. simpl.
  rewrite category_of_page. simpl.
  destruct (query_page p' "h3.e-ti75j2") as [|e deli] eqn:Hdeli.
  - exists []. split; [done|constructor].
  - rewrite <- Hdeli.
    destruct (items_loop_rows
                (match query_page p' "h1.e-4jb28s" with
                 | e :: _ => text_of e
                 | [] => "Unknown Category"
                 end) current_date (query_page p' "h3.e-ti75j2") [] [])
      as (rows & Hloop & Hrows).
    simpl in Hloop. exists rows. split; [|done].
    rewrite Hdeli in *. simpl. exact Hloop.
Qed.

Lemma scrape_inv fuel p rows :
  scrape_deli_items fuel p = Ret rows →
  ∃ p', scroll_to_load_all_items fuel p = Ret p'.
Proof.
  unfold scrape_deli_items.
  destruct (scroll_to_load_all_items fuel p) as [p'| |]; [|done..].
  by exists p'.
Qed.

(** A row that [scrape_deli_items] returns has the five columns of the
    file as its keys. *)
Lemma scraped_row_keys fuel p rows row :
  scrape_deli_items fuel p = Ret rows → row ∈ rows →
  dom row = list_to_set fieldnames.
Proof.
  intros Hscrape Hin.
  destruct (scrape_inv _ _ _ Hscrape) as [p' Hscroll].
  destruct (scrape_after_scroll _ _ _ Hscroll) as (rows' & Hrows' & Hall).
  assert (rows' = rows) as -> by congruence.
  apply list_elem_of_lookup in Hin as [i Hi].
  destruct (Forall2_lookup_r _ _ _ _ _ Hall Hi) as (e & _ & details & Hdetails & ->).
  destruct (extract_item_details_returns [e]) as (price & _ & Hform).
  rewrite Hform in Hdetails. injection Hdetails as <-.
  rewrite !dom_insert_L, dom_empty_L. unfold fieldnames. set_solver.
Qed.

End ScrapingFacts.

Section ScrapingProperties.
Context `{Browser}.

(** X3: once the scroll loop has returned, [scrape_deli_items] returns one
    row for each product heading of the page as it then stands, in
    document order: the fields extracted from the heading, with the
    heading of the page (or "Unknown Category") and the date of the day
    added. *)
Theorem scrape_rows_follow_products fuel p p' :
  scroll_to_load_all_items fuel p = Ret p' →
  ∃ rows,
    scrape_deli_items fuel p = Ret rows ∧
    length rows = Locator.count (query_page p' "h3.e-ti75j2") ∧
    ∀ i e, query_page p' "h3.e-ti75j2" !! i = Some e →
      ∃ details,
        extract_item_details [e] = Ret details ∧
        rows !! i =
          Some (<["Date" := current_date]>
                 (<["Category" :=
                     match query_page p' "h1.e-4jb28s" with
                     | heading :: _ => text_of heading
                     | [] => "Unknown Category"
                     end]> details)).
Proof.
  intros Hscroll.
  destruct (scrape_after_scroll _ _ _ Hscroll) as (rows & Hrows & Hall).
  exists rows. split; [done|]. split.
  - symmetry. by eapply Forall2_length.
  - intros i e Hi.
    destruct (Forall2_lookup_l _ _ _ _ _ Hall Hi)
      as (row & Hrow & details & Hdetails & ->).
    by exists details.
Qed.

(** X4: the rows scraped from a page can always be written: their keys are
    the five columns, so that [DictWriter] raises no [ValueError] on them
    and writes the record of each, one after the other. *)
Theorem scraped_rows_fit_the_writer fuel p rows :
  scrape_deli_items fuel p = Ret rows →
  (∀ row, row ∈ rows → dom row = list_to_set fieldnames) ∧
  writerows rows EmptyString = (Ret (), rows_text rows).
Proof.
  intros Hscrape.
  assert (∀ row, row ∈ rows → dom row = list_to_set fieldnames) as Hkeys.
  { intros row. by apply (scraped_row_keys fuel p). }
  split; [done|]. apply writerows_well_formed.
  intros row Hin. by rewrite (Hkeys row Hin).
Qed.

End ScrapingProperties.

Lemma scrape_rows_witness :
  ∃ rows,
    @scrape_deli_items mock_site 1 category_ham = Ret rows ∧
    length rows = 1 ∧
    ∀ i e, [item_3_99] !! i = Some e →
      ∃ details,
        @extract_item_details mock_site [e] = Ret details ∧
        rows !! i =
          Some (<["Date" := "2024-01-01"]> (<["Category" := "Deli"]> details)).
Proof.
  apply (@scrape_rows_follow_products mock_site 1 category_ham
           (MockPage (mock_matches category_ham) [] (λ _, 800%Z) 1)).
  reflexivity.
Defined.

Lemma scraped_rows_witness :
  (∀ row, row ∈ [ham_record] → dom row = list_to_set fieldnames) ∧
  writerows [ham_record] EmptyString = (Ret (), rows_text [ham_record]).
Proof.
  apply (@scraped_rows_fit_the_writer mock_site 1 category_ham [ham_record]).
  vm_compute. reflexivity.
Defined.

(** ** Appending to the file *)

Lemma append_empty_l (s : string) : EmptyString +:+ s = s.
Proof. reflexivity. Qed.

Lemma writerows_bad_row good bad rest :
  (∀ rowdict, rowdict ∈ good → dom rowdict ⊆ list_to_set fieldnames) →
  ¬ dom bad ⊆ list_to_set fieldnames →
  writerows (good ++ bad :: rest) EmptyString = (Raise ValueError, rows_text good).
Proof.
  intros Hgood Hbad. induction good as [|rowdict good IH]; simpl.
  - unfold dict_to_list. by rewrite decide_False.
  - unfold dict_to_list. rewrite decide_True by (apply Hgood; by left).
    rewrite writerows_from, IH by (intros r Hr; apply Hgood; by right).
    done.
Qed.

Lemma writerows_app_well_formed d1 d2 :
  (∀ rowdict, rowdict ∈ d1 → dom rowdict ⊆ list_to_set fieldnames) →
  writerows (d1 ++ d2) EmptyString =
    ((writerows d2 EmptyString).1, rows_text d1 +:+ (writerows d2 EmptyString).2).
Proof.
  intros Hgood. induction d1 as [|rowdict d1 IH]; simpl.
  - by destruct (writerows d2 EmptyString).
  - unfold dict_to_list. rewrite decide_True by (apply Hgood; by left).
    rewrite writerows_from, IH by (intros r Hr; apply Hgood; by right).
    simpl. change (EmptyString +:+ Csv.writerow (row_of rowdict))
      with (Csv.writerow (row_of rowdict)).
    by rewrite append_assoc.
Qed.

Section AppendProperties.
Context `{Sniffer}.

(** X6: [append_to_csv] only adds to a file that is there, whatever the
    sniff answers and whether the write goes to its end or not; and the
    file that is not there is created exactly when the batch is not
    empty. *)
Theorem append_never_rewrites (data : list (gmap string string)) (old : string) :
  (∃ added, (append_to_csv data (Some old)).2 = Some (old +:+ added)) ∧
  ((append_to_csv data None).2 = None ↔ data = []).
Proof.
  split.
  - destruct data as [|rowdict data].
    { exists EmptyString. simpl. by rewrite append_empty_r. }
    destruct (sniff_header (Some old)) as [has_hdr|e|] eqn:Hsniff.
    + rewrite (append_to_csv_sniffed _ _ has_hdr) by done. by eexists.
    + exists EmptyString. unfold append_to_csv. rewrite Hsniff. simpl.
      by rewrite append_empty_r.
    + exists EmptyString. unfold append_to_csv. rewrite Hsniff. simpl.
      by rewrite append_empty_r.
  - destruct data as [|rowdict data]; [done|].
    rewrite (append_to_csv_sniffed _ None false) by done. split; done.
Qed.

(** X7: a row with a key that is not a column stops the write with
    [ValueError] after the header row, if one was due, and the rows
    before it have been written: the file keeps them. *)
Theorem bad_row_stops_the_write good bad rest file has_hdr :
  sniff_header file = Ret has_hdr →
  (∀ rowdict, rowdict ∈ good → dom rowdict ⊆ list_to_set fieldnames) →
  ¬ dom bad ⊆ list_to_set fieldnames →
  append_to_csv (good ++ bad :: rest) file =
    (Raise ValueError,
     Some (default EmptyString file
           +:+ (if has_hdr then EmptyString else header_line)
           +:+ rows_text good)).
Proof.
  intros Hsniff Hgood Hbad.
  rewrite (append_to_csv_sniffed _ file has_hdr); [|by destruct good|done].
  by rewrite writerows_bad_row.
Qed.

(** X8: the header is decided on the sample alone, the first 1024
    characters of the text as it is read, line ends translated: two files
    with the same sample get the same text added by the same batch, with
    the same outcome. *)
Theorem header_decision_reads_1024 data (c1 c2 : string) :
  sample c1 = sample c2 →
  ∃ result added,
    append_to_csv data (Some c1) = (result, Some (c1 +:+ added)) ∧
    append_to_csv data (Some c2) = (result, Some (c2 +:+ added)).
Proof.
  intros Hsame. destruct data as [|rowdict data].
  { exists (Ret ()), EmptyString. simpl. by rewrite !append_empty_r. }
  assert (sniff_header (Some c2) = sniff_header (Some c1)) as Hsniff.
  { unfold sniff_header. by rewrite Hsame. }
  destruct (sniff_header (Some c1)) as [has_hdr|e|] eqn:Hc1.
  - rewrite !(append_to_csv_sniffed _ _ has_hdr) by done. by eexists _, _.
  - exists (Raise e), EmptyString. unfold append_to_csv.
    rewrite Hsniff, Hc1. simpl. by rewrite !append_empty_r.
  - exists OutOfFuel, EmptyString. unfold append_to_csv.
    rewrite Hsniff, Hc1. simpl. by rewrite !append_empty_r.
Qed.

(** X9: on a file whose text, as it is read, has 1024 characters or more
    and in which the sniff finds the header, two appends one after the
    other leave what one append of the two batches together leaves. *)
Theorem long_file_appends_compose (old : string) d1 d2 :
  1024 ≤ String.length (universal_newlines old) →
  has_header (sample old) = inr true →
  (∀ rowdict, rowdict ∈ d1 → dom rowdict ⊆ list_to_set fieldnames) →
  d1 ≠ [] → d2 ≠ [] →
  append_to_csv d2 (append_to_csv d1 (Some old)).2
    = append_to_csv (d1 ++ d2) (Some old).
Proof.
  intros Hlong Hsniff Hgood Hd1 Hd2.
  assert (sniff_header (Some old) = Ret true) as Hold.
  { unfold sniff_header. by rewrite Hsniff. }
  rewrite (append_to_csv_sniffed d1 _ true), writerows_well_formed by done.
  cbn [snd default from_option id].
  rewrite (append_to_csv_sniffed d2 _ true); [|done|].
  - rewrite (append_to_csv_sniffed (d1 ++ d2) _ true); [|by destruct d1|done].
    rewrite writerows_app_well_formed by done.
    cbn [fst snd default from_option id].
    by rewrite !append_empty_l, !append_assoc.
  - unfold sniff_header. rewrite sample_append by done. by rewrite Hsniff.
Qed.

End AppendProperties.

Lemma bad_row_witness :
  @append_to_csv header_on_top ([ham_record] ++ bad_record :: [ham_record]) None
    = (Raise ValueError,
       Some (EmptyString +:+ header_line +:+ rows_text [ham_record])).
Proof.
  apply (@bad_row_stops_the_write header_on_top
           [ham_record] bad_record [ham_record] None false).
  - reflexivity.
  - intros rowdict Hin. apply list_elem_of_In in Hin. simpl in Hin.
    destruct Hin as [<-|[]]. vm_compute. done.
  - apply (proj1 (bool_decide_eq_false _)). vm_compute. reflexivity.
Defined.

Lemma header_decision_witness :
  ∃ result added,
    @append_to_csv header_on_top [ham_record] (Some long_file)
      = (result, Some (long_file +:+ added)) ∧
    @append_to_csv header_on_top [ham_record] (Some (long_file +:+ header_line))
      = (result, Some ((long_file +:+ header_line) +:+ added)).
Proof.
  apply (@header_decision_reads_1024 header_on_top [ham_record]
           long_file (long_file +:+ header_line)).
  vm_compute. reflexivity.
Defined.

Lemma appends_compose_witness :
  @append_to_csv header_on_top [ham_record]
    (@append_to_csv header_on_top [ham_record] (Some long_file)).2
    = @append_to_csv header_on_top ([ham_record] ++ [ham_record]) (Some long_file).
Proof.
  apply (@long_file_appends_compose header_on_top long_file
           [ham_record] [ham_record]).
  - apply Nat.leb_le. vm_compute. reflexivity.
  - vm_compute. reflexivity.
  - intros rowdict Hin. apply list_elem_of_In in Hin. simpl in Hin.
    destruct Hin as [<-|[]]. vm_compute. done.
  - discriminate.
  - discriminate.
Defined.

(** ** Discovery *)

Section DiscoveryLemmas.
Context `{Browser}.

Lemma href_of_no_fuel (link : Locator.t) : href_of link ≠ OutOfFuel.
Proof.
  unfold href_of, Locator.get_attribute, Locator.the.
  destruct link as [|e [|e' link]]; simpl; try done.
  by destruct (attribute_of e "href").
Qed.

(** What the loop adds to the set are URLs with a collection path. *)
Lemma subcat_loop_adds_collections links indices : ∀ sub_urls result,
  subcat_loop links indices sub_urls = Ret result →
  ∀ url, url ∈ result → url ∈ sub_urls ∨ is_collection_url url = true.
Proof.
  induction indices as [|i indices IH]; intros sub_urls result; simpl.
  - intros [= <-] url Hin. by left.
  - destruct (href_of (Locator.nth links i)) as [href| |]; simpl; [|done..].
    destruct (is_collection_url (full_url_of href)) eqn:Hmatch.
    + intros Hloop url Hin.
      destruct (IH _ _ Hloop url Hin) as [Hold|Hnew]; [|by right].
      apply elem_of_union in Hold as [Hold|Hold]; [by left|].
      apply elem_of_singleton in Hold as ->. by right.
    + apply IH.
Qed.

Lemma subcat_loop_no_fuel links indices : ∀ sub_urls,
  subcat_loop links indices sub_urls ≠ OutOfFuel.
Proof.
  induction indices as [|i indices IH]; intros sub_urls; simpl; [done|].
  pose proof (href_of_no_fuel (Locator.nth links i)) as Hhref.
  destruct (href_of (Locator.nth links i)) as [href| |]; simpl; [|done..].
  destruct (is_collection_url (full_url_of href)); apply IH.
Qed.

Lemma get_subcategory_urls_no_fuel department_url :
  get_subcategory_urls department_url ≠ OutOfFuel.
Proof.
  unfold get_subcategory_urls.
  destruct (goto department_url) as [e|p]; simpl; [done|].
  pose proof (subcat_loop_no_fuel (query_page p subcat_selector)
    (seq 0 (Locator.count (query_page p subcat_selector))) ∅) as Hloop.
  by destruct (subcat_loop _ _ _).
Qed.

Lemma get_subcategory_urls_shape department_url urls :
  get_subcategory_urls department_url = Ret urls →
  urls ≠ [] ∧ NoDup urls ∧
  (urls = [department_url] ∨ ∀ url, url ∈ urls → is_collection_url url = true).
Proof.
  unfold get_subcategory_urls.
  destruct (goto department_url) as [e|p]; simpl; [done|].
  destruct (subcat_loop _ _ _) as [sub_urls| |] eqn:Hloop; simpl; [|done..].
  intros [= <-]. case_decide as Hempty.
  - subst sub_urls. rewrite (left_id_L ∅ (∪)), elements_singleton.
    split; [done|]. split; [apply NoDup_singleton|by left].
  - split; [|split; [apply NoDup_elements|right]].
    + intros Hnil. apply Hempty. apply leibniz_equiv.
      by apply elements_empty_iff.
    + intros url Hin. apply elem_of_elements in Hin.
      destruct (subcat_loop_adds_collections _ _ _ _ Hloop url Hin)
        as [Hold|Hnew]; [|done].
      by apply not_elem_of_empty in Hold.
Qed.

(** The loop over the department links, as far as the links have an
    href. *)
Lemma dept_loop_links (links : Locator.t) : ∀ before after hrefs rest dept_urls,
  (λ link, attribute_of link "href") <$> links = Some <$> hrefs →
  dept_loop (before ++ links ++ after)
    (seq (length before) (length links) ++ rest) dept_urls
    = dept_loop (before ++ links ++ after) rest
        (dept_urls ∪ list_to_set (full_url_of <$> hrefs)).
Proof.
  induction links as [|link links IH]; intros before after hrefs rest dept_urls Hhrefs.
  - destruct hrefs; [|done]. simpl. by rewrite (right_id_L ∅ (∪)).
  - destruct hrefs as [|href hrefs]; [done|].
    injection Hhrefs as Hhref Hrest.
    cbn [length seq app dept_loop].
    rewrite nth_middle, (href_of_link _ _ Hhref). simpl.
    specialize (IH (before ++ [link]) after hrefs rest).
    rewrite <- (assoc_L (++)), length_app, Nat.add_1_r in IH. simpl in IH.
    rewrite IH by done. by rewrite (assoc_L (∪)).
Qed.

Lemma all_sub_loop_union subs dept_urls : ∀ all_sub_urls,
  (∀ dept_url, dept_url ∈ dept_urls →
     get_subcategory_urls dept_url = Ret (subs dept_url)) →
  all_sub_loop dept_urls all_sub_urls
    = Ret (all_sub_urls ∪ ⋃ ((λ dept_url, list_to_set (subs dept_url)) <$> dept_urls)).
Proof.
  induction dept_urls as [|dept_url dept_urls IH]; intros all_sub_urls Hsubs; simpl.
  - by rewrite (right_id_L ∅ (∪)).
  - rewrite (Hsubs dept_url) by (by left). simpl.
    rewrite IH by (intros d Hd; apply Hsubs; by right).
    by rewrite (assoc_L (∪)).
Qed.

Lemma all_sub_loop_raises dept_urls dept_url e : ∀ all_sub_urls,
  dept_url ∈ dept_urls →
  get_subcategory_urls dept_url = Raise e →
  ∃ e', all_sub_loop dept_urls all_sub_urls = Raise e'.
Proof.
  induction dept_urls as [|d dept_urls IH]; intros all_sub_urls Hin Hraise.
  - by inversion Hin.
  - simpl. pose proof (get_subcategory_urls_no_fuel d) as Hfuel.
    destruct (get_subcategory_urls d) as [sub_urls|e'|] eqn:Hd; simpl.
    + apply IH; [|done]. apply elem_of_cons in Hin as [->|Hin]; [|done].
      congruence.
    + by exists e'.
    + done.
Qed.

End DiscoveryLemmas.

Section DiscoveryProperties.
Context `{Browser}.

(** X10: the list [get_subcategory_urls] returns is never empty and holds no
    URL twice: it is the department URL alone, or it holds only URLs with
    one of the two collection paths. *)
Theorem subcategory_list_never_empty department_url urls :
  get_subcategory_urls department_url = Ret urls →
  urls ≠ [] ∧ NoDup urls ∧
  (urls = [department_url] ∨ ∀ url, url ∈ urls → is_collection_url url = true).
Proof. apply get_subcategory_urls_shape. Qed.

Lemma get_department_urls_links p hrefs :
  storefront = Ret p →
  Locator.count (query_page p "ul.e-19g896u") ≠ 0 →
  (λ link, attribute_of link "href")
    <$> query_page p "ul.e-19g896u > li > a.e-v0wv1" = Some <$> hrefs →
  get_department_urls =
    (all_sub_urls ←
       all_sub_loop (elements (list_to_set (full_url_of <$> hrefs) : gset string)) ∅;
     Ret (elements all_sub_urls)).
Proof.
  intros Hstore Hcount Hhrefs. unfold get_department_urls.
  rewrite Hstore. simpl.
  destruct (Nat.eqb_spec (Locator.count (query_page p "ul.e-19g896u")) 0);
    [done|].
  pose proof (dept_loop_links _ [] [] hrefs [] ∅ Hhrefs) as Hloop.
  rewrite !(right_id_L [] (++)) in Hloop. simpl in Hloop.
  unfold Locator.count. rewrite Hloop. simpl.
  by rewrite (left_id_L ∅ (∪)).
Qed.

(** X11: when every department page can be gone through, the list
    [get_department_urls] returns holds no URL twice and is made of the
    sub-category lists of the departments, each department taken once;
    it is not empty when there is a department link. *)
Theorem department_urls_are_the_union p hrefs (subs : string → list string) :
  storefront = Ret p →
  Locator.count (query_page p "ul.e-19g896u") ≠ 0 →
  (λ link, attribute_of link "href")
    <$> query_page p "ul.e-19g896u > li > a.e-v0wv1" = Some <$> hrefs →
  (∀ href, href ∈ hrefs →
     get_subcategory_urls (full_url_of href) = Ret (subs (full_url_of href))) →
  ∃ urls,
    get_department_urls = Ret urls ∧
    NoDup urls ∧
    (∀ url, url ∈ urls ↔ ∃ href, href ∈ hrefs ∧ url ∈ subs (full_url_of href)) ∧
    (hrefs ≠ [] → urls ≠ []).
Proof.
  intros Hstore Hcount Hhrefs Hsubs.
  rewrite (get_department_urls_links p hrefs) by done.
  rewrite (all_sub_loop_union subs).
  2:{ intros d Hd. apply elem_of_elements, elem_of_list_to_set in Hd.
      apply list_elem_of_fmap in Hd as (href & -> & Hin). by apply Hsubs. }
  simpl. rewrite (left_id_L ∅ (∪)).
  eexists. split; [done|]. split; [apply NoDup_elements|].
  assert (∀ url,
    url ∈ ⋃ ((λ d, list_to_set (subs d) : gset string)
              <$> elements (list_to_set (full_url_of <$> hrefs) : gset string))
    ↔ ∃ href, href ∈ hrefs ∧ url ∈ subs (full_url_of href)) as Hmember.
  { intros url. rewrite elem_of_union_list. split.
    - intros (X & HX & Hurl).
      apply list_elem_of_fmap in HX as (d & -> & Hd).
      apply elem_of_elements, elem_of_list_to_set in Hd.
      apply list_elem_of_fmap in Hd as (href & -> & Hin).
      exists href. split; [done|]. by apply elem_of_list_to_set in Hurl.
    - intros (href & Hin & Hurl). eexists. split.
      + apply list_elem_of_fmap. exists (full_url_of href). split; [done|].
        apply elem_of_elements, elem_of_list_to_set.
        by apply list_elem_of_fmap_2.
      + by apply elem_of_list_to_set. }
  split.
  - intros url. rewrite elem_of_elements. apply Hmember.
  - intros Hsome Hnil. destruct hrefs as [|href hrefs]; [done|].
    destruct (get_subcategory_urls_shape _ _ (Hsubs href ltac:(by left)))
      as (Hne & _).
    destruct (subs (full_url_of href)) as [|url sub_urls] eqn:Hsub; [done|].
    assert (url ∈ elements (⋃ ((λ d, list_to_set (subs d) : gset string)
              <$> elements (list_to_set (full_url_of <$> href :: hrefs) : gset string))))
      as Hin.
    { apply elem_of_elements, Hmember. exists href.
      split; [by left|]. rewrite Hsub. by left. }
    rewrite Hnil in Hin. by inversion Hin.
Qed.

(** X12: discovery has no guard of its own: a department page that cannot be
    loaded makes [get_department_urls] raise, and [run] with it, before
    any category is scraped and with the output file untouched. *)
Theorem failed_department_aborts_run p hrefs href e :
  storefront = Ret p →
  Locator.count (query_page p "ul.e-19g896u") ≠ 0 →
  (λ link, attribute_of link "href")
    <$> query_page p "ul.e-19g896u > li > a.e-v0wv1" = Some <$> hrefs →
  href ∈ hrefs →
  goto (full_url_of href) = inl e →
  ∃ e',
    get_department_urls = Raise e' ∧
    ∀ (sniffer : Sniffer) fuel file, run fuel file = (Raise e', file).
Proof.
  intros Hstore Hcount Hhrefs Hin Hgoto.
  assert (get_subcategory_urls (full_url_of href) = Raise e) as Hraise.
  { unfold get_subcategory_urls. by rewrite Hgoto. }
  destruct (all_sub_loop_raises
              (elements (list_to_set (full_url_of <$> hrefs) : gset string))
              (full_url_of href) e ∅) as [e' He']; [|done|].
  { apply elem_of_elements, elem_of_list_to_set. by apply list_elem_of_fmap_2. }
  exists e'.
  assert (get_department_urls = Raise e') as Hurls.
  { rewrite (get_department_urls_links p hrefs) by done. by rewrite He'. }
  split; [done|]. intros sniffer fuel file. unfold run, run_with.
  by rewrite Hurls.
Qed.

(** X13: a department link without an href attribute, the links before it
    having one, ends discovery with [AttributeError], and [run] with it,
    the output file untouched. *)
Theorem department_link_without_href p before link after hrefs :
  storefront = Ret p →
  Locator.count (query_page p "ul.e-19g896u") ≠ 0 →
  query_page p "ul.e-19g896u > li > a.e-v0wv1" = before ++ link :: after →
  (λ link, attribute_of link "href") <$> before = Some <$> hrefs →
  attribute_of link "href" = None →
  get_department_urls = Raise AttributeError ∧
  ∀ (sniffer : Sniffer) fuel file, run fuel file = (Raise AttributeError, file).
Proof.
  intros Hstore Hcount Hlinks Hhrefs Hnone.
  assert (get_department_urls = Raise AttributeError) as Hurls.
  { unfold get_department_urls. rewrite Hstore. simpl.
    destruct (Nat.eqb_spec (Locator.count (query_page p "ul.e-19g896u")) 0);
      [done|].
    rewrite Hlinks. unfold Locator.count.
    rewrite length_app. cbn [length]. rewrite seq_app. cbn [seq].
    pose proof (dept_loop_links before [] (link :: after) hrefs
      (0 + length before :: seq (S (0 + length before)) (length after)) ∅ Hhrefs)
      as Hloop.
    simpl in Hloop. simpl. rewrite Hloop. 
    rewrite nth_middle. unfold href_of. simpl. by rewrite Hnone. }
  split; [done|]. intros sniffer fuel file. unfold run, run_with.
  by rewrite Hurls.
Qed.

End DiscoveryProperties.

Lemma subcategory_list_witness :
  ["https://shop.aldi.us/store/aldi/collections/n-123"] ≠ [] ∧
  NoDup ["https://shop.aldi.us/store/aldi/collections/n-123"] ∧
  (["https://shop.aldi.us/store/aldi/collections/n-123"]
     = ["https://shop.aldi.us/store/aldi/collections/d-1"] ∨
   ∀ url, url ∈ ["https://shop.aldi.us/store/aldi/collections/n-123"] →
     is_collection_url url = true).
Proof.
  apply (@subcategory_list_never_empty mock_site
           "https://shop.aldi.us/store/aldi/collections/d-1").
  vm_compute. reflexivity.
Defined.

Lemma department_urls_witness :
  ∃ urls,
    @get_department_urls mock_site = Ret urls ∧
    NoDup urls ∧
    (∀ url, url ∈ urls ↔
       ∃ href, href ∈ ["/store/aldi/collections/d-1"; "/store/aldi/collections/d-2";
                       "/store/aldi/collections/d-3"; "/store/aldi/collections/d-1"] ∧
               url ∈ mock_subs (full_url_of href)) ∧
    (["/store/aldi/collections/d-1"; "/store/aldi/collections/d-2";
      "/store/aldi/collections/d-3"; "/store/aldi/collections/d-1"] ≠ [] →
     urls ≠ []).
Proof.
  apply (@department_urls_are_the_union mock_site storefront_page).
  - reflexivity.
  - compute. discriminate.
  - reflexivity.
  - intros href Hin. apply list_elem_of_In in Hin. simpl in Hin.
    destruct Hin as [<-|[<-|[<-|[<-|[]]]]]; vm_compute; reflexivity.
Defined.

Lemma failed_department_witness :
  ∃ e',
    @get_department_urls site_broken_department = Raise e' ∧
    ∀ (sniffer : Sniffer) fuel file,
      @run site_broken_department sniffer fuel file = (Raise e', file).
Proof.
  apply (@failed_department_aborts_run site_broken_department
           (still_page
              [("ul.e-19g896u", [mock_text "Departments"]);
               ("ul.e-19g896u > li > a.e-v0wv1",
                [mock_link "/store/aldi/collections/d-1";
                 mock_link "/store/aldi/collections/d-7"])])
           ["/store/aldi/collections/d-1"; "/store/aldi/collections/d-7"]
           "/store/aldi/collections/d-7"
           (NavigationError "https://shop.aldi.us/store/aldi/collections/d-7")).
  - reflexivity.
  - compute. discriminate.
  - reflexivity.
  - apply list_elem_of_In. simpl. auto.
  - reflexivity.
Defined.

Lemma department_link_witness :
  @get_department_urls site_without_href = Raise AttributeError ∧
  ∀ (sniffer : Sniffer) fuel file,
    @run site_without_href sniffer fuel file = (Raise AttributeError, file).
Proof.
  apply (@department_link_without_href site_without_href
           (still_page
              [("ul.e-19g896u", [mock_text "Departments"]);
               ("ul.e-19g896u > li > a.e-v0wv1",
                [mock_link "/store/aldi/collections/d-1"; mock_text "Weekly ad"])])
           [mock_link "/store/aldi/collections/d-1"] (mock_text "Weekly ad") []
           ["/store/aldi/collections/d-1"]).
  - reflexivity.
  - compute. discriminate.
  - reflexivity.
  - reflexivity.
  - reflexivity.
Defined.

(** ** URLs *)

(** X14: making a URL absolute a second time changes nothing, and the test
    for a collection path gives on the absolute URL what it gives on the
    href: the host put in front adds no such path. *)
Theorem full_url_is_stable (href : string) :
  full_url_of (full_url_of href) = full_url_of href ∧
  is_collection_url (full_url_of href) = is_collection_url href.
Proof.
  unfold full_url_of. destruct (startswith href "/") eqn:Hslash.
  - split; [reflexivity|]. unfold is_collection_url. vm_compute. reflexivity.
  - by rewrite Hslash.
Qed.

(** ** The whole run *)

Section RunLemmas.
Context `{Browser}.

Lemma rows_of_keys fuel url rows row :
  rows_of fuel url = Some rows → row ∈ rows →
  dom row ⊆ list_to_set fieldnames.
Proof.
  unfold rows_of, scrape_url.
  destruct (goto url) as [e|p]; simpl; [done|].
  destruct (scrape_deli_items fuel p) as [deli_data| |] eqn:Hscrape; [|done..].
  intros [= <-] Hin. by rewrite (scraped_row_keys fuel p deli_data row).
Qed.

Lemma all_rows_keys fuel urls row :
  row ∈ concat (omap (rows_of fuel) urls) → dom row ⊆ list_to_set fieldnames.
Proof.
  intros Hin. apply list_elem_of_In, in_concat in Hin as (rows & Hrows & Hrow).
  apply list_elem_of_In in Hrows. apply list_elem_of_In in Hrow.
  apply list_elem_of_omap in Hrows as (url & _ & Hurl).
  by apply (rows_of_keys fuel url rows).
Qed.

End RunLemmas.

Section RunProperties.
Context `{Browser} `{Sniffer}.

(** X15: a first run, on a file that is not there: when every scroll loop
    ends, [run] returns and leaves the header row followed by the record
    of each product of the categories that could be scraped, in the
    order of the URLs; and no file at all when there is no such product. *)
Theorem first_run_writes_header_and_rows fuel urls :
  get_department_urls = Ret urls →
  (∀ url, url ∈ urls → scrape_url fuel url ≠ OutOfFuel) →
  run fuel None =
    (Ret (),
     match concat (omap (rows_of fuel) urls) with
     | [] => None
     | rows => Some (header_line +:+ rows_text rows)
     end).
Proof.
  intros Hurls Hfuel. unfold run, run_with. rewrite Hurls.
  destruct urls as [|url urls]; [done|].
  rewrite (run_loop_rows fuel (url :: urls) [] Hfuel). cbn [app].
  pose proof (all_rows_keys fuel (url :: urls)) as Hkeys.
  destruct (concat (omap (rows_of fuel) (url :: urls))) as [|row rows]; [done|].
  rewrite (append_to_csv_sniffed _ None false) by done.
  rewrite writerows_well_formed by (intros r Hr; by apply Hkeys).
  done.
Qed.

(** X16: when no category gives a row, because it cannot be scraped or has
    no product, [run] returns without consulting the sniffer and leaves
    the output file as it was. *)
Theorem run_without_rows_writes_nothing fuel urls file :
  get_department_urls = Ret urls →
  (∀ url, url ∈ urls →
     (∃ e, scrape_url fuel url = Raise e) ∨ scrape_url fuel url = Ret []) →
  run fuel file = (Ret (), file).
Proof.
  intros Hurls Hnone. unfold run, run_with. rewrite Hurls.
  destruct urls as [|url urls]; [done|].
  rewrite (run_loop_rows fuel (url :: urls) []).
  2:{ intros u Hu. destruct (Hnone u Hu) as [[e ->]| ->]; done. }
  assert (concat (omap (rows_of fuel) (url :: urls)) = []) as ->; [|done].
  clear Hurls. induction (url :: urls) as [|u us IH]; [done|].
  simpl. unfold rows_of at 1.
  destruct (Hnone u ltac:(by left)) as [[e ->]| ->]; simpl;
    apply IH; intros u' Hu'; apply Hnone; by right.
Qed.

(** X18: when the sniffer raises on the sample of the file that is there,
    [run] raises its exception once all the scraping is done: the rows
    are not written. *)
Theorem sniffer_error_loses_the_rows fuel urls (old : string) e :
  get_department_urls = Ret urls →
  (∀ url, url ∈ urls → scrape_url fuel url ≠ OutOfFuel) →
  concat (omap (rows_of fuel) urls) ≠ [] →
  has_header (sample old) = inl e →
  run fuel (Some old) = (Raise e, Some old).
Proof.
  intros Hurls Hfuel Hrows Hsniff. unfold run, run_with. rewrite Hurls.
  destruct urls as [|url urls]; [done|].
  rewrite (run_loop_rows fuel (url :: urls) [] Hfuel). cbn [app].
  destruct (concat (omap (rows_of fuel) (url :: urls))) as [|row rows]; [done|].
  unfold append_to_csv, sniff_header. by rewrite Hsniff.
Qed.

End RunProperties.

Lemma first_run_witness :
  @run mock_site header_on_top 1 None = (Ret (), Some fresh_file).
Proof.
  rewrite (@first_run_writes_header_and_rows mock_site header_on_top 1 mock_urls).
  - vm_compute. reflexivity.
  - reflexivity.
  - intros url Hin. apply list_elem_of_In in Hin. simpl in Hin.
    destruct Hin as [<-|[<-|[<-|[]]]]; vm_compute; discriminate.
Defined.

Lemma run_without_rows_witness :
  @run site_broken_category failing_sniffer 1 (Some fresh_file)
    = (Ret (), Some fresh_file).
Proof.
  apply (@run_without_rows_writes_nothing site_broken_category failing_sniffer 1
           ["https://shop.aldi.us/store/aldi/collections/rc-9"]).
  - vm_compute. reflexivity.
  - intros url Hin. apply list_elem_of_In in Hin. simpl in Hin.
    destruct Hin as [<-|[]]. left. eexists. vm_compute. reflexivity.
Defined.

Lemma sniffer_error_witness :
  @run mock_site failing_sniffer 1 (Some EmptyString)
    = (Raise CsvError, Some EmptyString).
Proof.
  apply (@sniffer_error_loses_the_rows mock_site failing_sniffer 1 mock_urls).
  - vm_compute. reflexivity.
  - intros url Hin. apply list_elem_of_In in Hin. simpl in Hin.
    destruct Hin as [<-|[<-|[<-|[]]]]; vm_compute; discriminate.
  - vm_compute. discriminate.
  - reflexivity.
Defined.
